(** * Mini CTF Game: the scoring store of [database.py]

    A shallow embedding of the SQLite-backed store (users, challenges,
    submissions, user_challenge_progress) and of the operations of
    [database.py], followed by the properties of the flag-submission
    workflow, the listings and the credential check. *)

From Stdlib Require Import ZArith NArith List Bool String Ascii Lia.
From Stdlib Require Import Permutation Sorting.Sorted DecimalString.
From Stdlib Require Import DecimalPos DecimalZ.
Import ListNotations.

Open Scope Z_scope.

(** ** Python strings

    A Python [str] is a sequence of Unicode code points.  SQLite stores TEXT
    verbatim and compares it with the BINARY collation, so equality in the
    store and [==] in Python are both equality of code-point sequences. *)

Definition char := N.
Definition str := list char.

Definition char_of_ascii (a : ascii) : char := N_of_ascii a.

(** A string literal of the source, as a [str]. *)
Definition py (s : string) : str := map char_of_ascii (list_ascii_of_string s).

Fixpoint str_eqb (a b : str) : bool :=
  match a, b with
  | [], [] => true
  | x :: a', y :: b' => N.eqb x y && str_eqb a' b'
  | _, _ => false
  end.

(** [str.isspace] on one code point: the whitespace table of CPython
    ([_PyUnicode_IsWhitespace]). *)
Definition isspace (c : char) : bool :=
  ((9 <=? c) && (c <=? 13) || (28 <=? c) && (c <=? 32)
   || (c =? 133) || (c =? 160) || (c =? 5760)
   || (8192 <=? c) && (c <=? 8202)
   || (c =? 8232) || (c =? 8233) || (c =? 8239) || (c =? 8287)
   || (c =? 12288))%N.

Fixpoint lstrip (s : str) : str :=
  match s with
  | [] => []
  | c :: r => if isspace c then lstrip r else s
  end.

Definition rstrip (s : str) : str := rev (lstrip (rev s)).

(** [s.strip()] with no argument: leading and trailing whitespace removed. *)
Definition strip (s : str) : str := rstrip (lstrip s).

(** [str(n)] for an [int], as interpolated by an f-string. *)
Definition str_of_int (n : Z) : str := py (NilZero.string_of_int (Z.to_int n)).

(** ** Generic table machinery

    A table with an [INTEGER PRIMARY KEY] is a list of rows in scan order,
    which for a rowid table is ascending rowid; rows are only ever appended.
    A row inserted without an explicit id gets the largest rowid in use plus
    one, or 1 in an empty table.

    INTEGER columns hold 64-bit values and the Python binding refuses to
    bind an [int] outside that range.  The embedding keeps integers in [Z]:
    it covers the runs in which no rowid and no score leaves the 64-bit
    range, where SQLite's integer arithmetic is exact.  The properties that
    state the value of a score say so in a hypothesis ([fits_int64],
    [score_update_fits], [run_fits] below). *)

Definition next_rowid (ids : list Z) : Z :=
  match ids with
  | [] => 1
  | i :: r => fold_left Z.max r i + 1
  end.

(** [cursor.fetchone()] after a SELECT with a WHERE clause: the first row of
    the scan that satisfies it, if any. *)
Definition fetchone {A : Type} (where_ : A -> bool) (rows : list A) : option A :=
  find where_ rows.

(** [UPDATE t SET ... WHERE ...]: every matching row is rewritten in place. *)
Definition update_where {A : Type} (where_ : A -> bool) (set : A -> A)
    (rows : list A) : list A :=
  map (fun r => if where_ r then set r else r) rows.

(** [ORDER BY]: SQLite feeds the rows of the scan to its sorter, which keeps
    rows with equal keys in scan order; [leb] is the comparison induced by
    the ORDER BY terms.  A row goes in front of the rows that come after it
    in the scan and do not sort strictly before it. *)
Fixpoint sorter_insert {A : Type} (leb : A -> A -> bool) (x : A) (l : list A)
    : list A :=
  match l with
  | [] => [x]
  | y :: r => if leb x y then x :: l else y :: sorter_insert leb x r
  end.

Definition order_by {A : Type} (leb : A -> A -> bool) (rows : list A) : list A :=
  fold_right (sorter_insert leb) [] rows.

(** ** Rows and the database *)

(** Timestamps.  [CURRENT_TIMESTAMP] yields the text 'YYYY-MM-DD HH:MM:SS',
    whose BINARY order is chronological order; the embedding keeps the
    instant itself, in seconds. *)
Definition Timestamp := N.

(** What an operation reads from its environment: the store's
    [CURRENT_TIMESTAMP] and Python's [datetime.now()]. *)
Record Clock := mkClock {
  current_timestamp : Timestamp;
  datetime_now : Timestamp
}.

Record User := mkUser {
  u_id : Z;
  username : str;
  password_hash : str;
  score : Z;
  is_organizer : bool;
  u_created_at : Timestamp
}.

Record Challenge := mkChallenge {
  c_id : Z;
  title : str;
  description : str;
  category : str;
  flag : str;
  points : Z;
  max_attempts : Z;
  is_active : bool;
  c_created_at : Timestamp
}.

Record Submission := mkSubmission {
  s_id : Z;
  s_user_id : Z;
  s_challenge_id : Z;
  submitted_flag : str;
  is_correct : bool;
  submitted_at : Timestamp
}.

Record Progress := mkProgress {
  p_id : Z;
  p_user_id : Z;
  p_challenge_id : Z;
  is_solved : bool;
  attempts_count : Z;
  solved_at : option Timestamp;
  locked_until : option Timestamp
}.

Record Db := mkDb {
  users : list User;
  challenges : list Challenge;
  submissions : list Submission;
  user_challenge_progress : list Progress
}.

(** The database right after [init_database] on a fresh file. *)
Definition empty_db : Db := mkDb [] [] [] [].

Inductive IntegrityError := UniqueViolation.

(** ** Storage layer: the statements the operations execute

    The UNIQUE constraints are enforced by the store.  The FOREIGN KEY
    clauses of [submissions] and [user_challenge_progress] are not: SQLite
    checks them only on a connection that has issued
    [PRAGMA foreign_keys = ON], which [get_db_connection] does not do. *)

(** [INSERT INTO users (username, password_hash, is_organizer)]: the UNIQUE
    constraint on [username] rejects a name that is already stored; [score]
    takes its default 0 and [created_at] the current timestamp. *)
Definition insert_user (clk : Clock) (db : Db) (name hash : str) (org : bool)
    : IntegrityError + (Db * Z) :=
  if existsb (fun u => str_eqb (username u) name) (users db)
  then inl UniqueViolation
  else
    let rowid := next_rowid (map u_id (users db)) in
    let row := mkUser rowid name hash 0 org (current_timestamp clk) in
    inr (mkDb (users db ++ [row]) (challenges db) (submissions db)
              (user_challenge_progress db), rowid).

(** [INSERT INTO challenges (title, description, category, flag, points,
    max_attempts)]: [is_active] takes its default 1. *)
Definition insert_challenge (clk : Clock) (db : Db)
    (title_ description_ category_ flag_ : str) (points_ max_attempts_ : Z)
    : Db * Z :=
  let rowid := next_rowid (map c_id (challenges db)) in
  let row := mkChallenge rowid title_ description_ category_ flag_ points_
                         max_attempts_ true (current_timestamp clk) in
  (mkDb (users db) (challenges db ++ [row]) (submissions db)
        (user_challenge_progress db), rowid).

(** [INSERT INTO submissions (user_id, challenge_id, submitted_flag,
    is_correct)]. *)
Definition insert_submission (clk : Clock) (db : Db) (user_id challenge_id : Z)
    (flag_ : str) (correct : bool) : Db :=
  let rowid := next_rowid (map s_id (submissions db)) in
  let row := mkSubmission rowid user_id challenge_id flag_ correct
                          (current_timestamp clk) in
  mkDb (users db) (challenges db) (submissions db ++ [row])
       (user_challenge_progress db).

Definition progress_key (user_id challenge_id : Z) (p : Progress) : bool :=
  (p_user_id p =? user_id) && (p_challenge_id p =? challenge_id).

(** [SELECT is_solved FROM user_challenge_progress WHERE user_id = ? AND
    challenge_id = ?], then [fetchone]. *)
Definition select_progress (db : Db) (user_id challenge_id : Z)
    : option Progress :=
  fetchone (progress_key user_id challenge_id) (user_challenge_progress db).

(** [UPDATE user_challenge_progress SET attempts_count = attempts_count + 1,
    is_solved = ?, solved_at = ? WHERE user_id = ? AND challenge_id = ?]. *)
Definition update_progress (db : Db) (user_id challenge_id : Z)
    (solved : bool) (at_ : option Timestamp) : Db :=
  mkDb (users db) (challenges db) (submissions db)
       (update_where (progress_key user_id challenge_id)
          (fun p => mkProgress (p_id p) (p_user_id p) (p_challenge_id p)
                      solved (attempts_count p + 1) at_ (locked_until p))
          (user_challenge_progress db)).

(** [INSERT INTO user_challenge_progress (user_id, challenge_id,
    attempts_count, is_solved, solved_at) VALUES (?, ?, 1, ?, ?)].  It is
    executed only after the SELECT on the same key returned no row, so the
    UNIQUE(user_id, challenge_id) constraint cannot reject it. *)
Definition insert_progress (db : Db) (user_id challenge_id : Z)
    (solved : bool) (at_ : option Timestamp) : Db :=
  let rowid := next_rowid (map p_id (user_challenge_progress db)) in
  let row := mkProgress rowid user_id challenge_id solved 1 at_ None in
  mkDb (users db) (challenges db) (submissions db)
       (user_challenge_progress db ++ [row]).

(** [UPDATE users SET score = score + ? WHERE id = ?].  The sum is the
    store's as long as it stays in the 64-bit range ([score_update_fits]);
    a sum that leaves the range is stored by SQLite as a REAL and is
    outside the embedding. *)
Definition update_score (db : Db) (amount user_id : Z) : Db :=
  mkDb (update_where (fun u => u_id u =? user_id)
          (fun u => mkUser (u_id u) (username u) (password_hash u)
                      (score u + amount) (is_organizer u) (u_created_at u))
          (users db))
       (challenges db) (submissions db) (user_challenge_progress db).

(** ** The operations of [database.py] *)

Section Operations.

(** [hashlib.sha256(password.encode()).hexdigest()]: the library's one-way
    hash, taken as given. *)
Variable sha256_hexdigest : str -> str.

(** [create_user]: the duplicate username is found by the INSERT itself,
    whose [sqlite3.IntegrityError] is turned into [None]. *)
Definition create_user (clk : Clock) (db : Db) (username_ password : str)
    (is_organizer_ : bool) : Db * option Z :=
  let password_hash_ := sha256_hexdigest password in
  match insert_user clk db username_ password_hash_ is_organizer_ with
  | inr (db', user_id) => (db', Some user_id)
  | inl UniqueViolation => (db, None)
  end.

Definition get_user_by_username (db : Db) (username_ : str) : option User :=
  fetchone (fun u => str_eqb (username u) username_) (users db).

Definition verify_password (db : Db) (username_ password : str) : option User :=
  match get_user_by_username db username_ with
  | None => None
  | Some user =>
      let password_hash_ := sha256_hexdigest password in
      if str_eqb (password_hash user) password_hash_ then Some user else None
  end.

Definition create_challenge (clk : Clock) (db : Db)
    (title_ description_ category_ flag_ : str) (points_ max_attempts_ : Z)
    : Db * Z :=
  insert_challenge clk db title_ description_ category_ flag_ points_
                   max_attempts_.

(** [SELECT * FROM challenges WHERE is_active = 1 ORDER BY points ASC]. *)
Definition by_points_asc (a b : Challenge) : bool := points a <=? points b.

Definition get_all_challenges (db : Db) : list Challenge :=
  order_by by_points_asc (filter is_active (challenges db)).

(** [SELECT * FROM challenges WHERE id = ? AND is_active = 1]. *)
Definition get_challenge_by_id (db : Db) (challenge_id : Z) : option Challenge :=
  fetchone (fun c => (c_id c =? challenge_id) && is_active c) (challenges db).

Definition already_solved (progress : option Progress) : bool :=
  match progress with
  | Some p => is_solved p
  | None => false
  end.

Definition submit_flag (clk : Clock) (db : Db) (user_id challenge_id : Z)
    (submitted_flag_ : str) : Db * (bool * str) :=
  match get_challenge_by_id db challenge_id with
  | None => (db, (false, py "Challenge not found"))
  | Some challenge =>
      let progress := select_progress db user_id challenge_id in
      if already_solved progress
      then (db, (false, py "Challenge already solved"))
      else
        let is_correct_ :=
          str_eqb (strip submitted_flag_) (strip (flag challenge)) in
        let db1 := insert_submission clk db user_id challenge_id
                     submitted_flag_ is_correct_ in
        let solved_at_ :=
          if is_correct_ then Some (datetime_now clk) else None in
        let db2 :=
          match progress with
          | Some _ =>
              update_progress db1 user_id challenge_id is_correct_ solved_at_
          | None =>
              insert_progress db1 user_id challenge_id is_correct_ solved_at_
          end in
        let db3 :=
          if is_correct_ then update_score db2 (points challenge) user_id
          else db2 in
        if is_correct_
        then (db3, (true, py "Correct! You earned "
                            ++ str_of_int (points challenge)
                            ++ py " points!"))
        else (db3, (false, py "Incorrect flag. Try again!"))
  end.

(** [SELECT username, score, created_at FROM users WHERE score > 0
    ORDER BY score DESC, created_at ASC]. *)
Definition by_score_desc_created_asc (a b : User) : bool :=
  (score b <? score a)
  || ((score a =? score b) && (u_created_at a <=? u_created_at b)%N).

Definition leaderboard_row (u : User) : str * Z * Timestamp :=
  (username u, score u, u_created_at u).

Definition get_leaderboard (db : Db) : list (str * Z * Timestamp) :=
  map leaderboard_row
      (order_by by_score_desc_created_asc
                (filter (fun u => 0 <? score u) (users db))).

(** ** Runs of the store *)

(** The calls that write to the store; the read-only operations leave it as
    it is. *)
Inductive Op :=
| CreateUser (clk : Clock) (username_ password : str) (is_organizer_ : bool)
| CreateChallenge (clk : Clock) (title_ description_ category_ flag_ : str)
                  (points_ max_attempts_ : Z)
| SubmitFlag (clk : Clock) (user_id challenge_id : Z) (submitted_flag_ : str).

Definition run_op (db : Db) (op : Op) : Db :=
  match op with
  | CreateUser clk n p o => fst (create_user clk db n p o)
  | CreateChallenge clk t d c f pts m =>
      fst (create_challenge clk db t d c f pts m)
  | SubmitFlag clk u c f => fst (submit_flag clk db u c f)
  end.

Definition run (db : Db) (ops : list Op) : Db := fold_left run_op ops db.

(** A sequence of registrations, with the identifier each one returned. *)
Fixpoint register_all (db : Db) (regs : list (Clock * str * str * bool))
    : Db * list (option Z) :=
  match regs with
  | [] => (db, [])
  | (clk, n, p, o) :: rest =>
      let '(db1, r) := create_user clk db n p o in
      let '(db2, rs) := register_all db1 rest in
      (db2, r :: rs)
  end.

End Operations.

(** ** Notions the properties are stated with *)

(** The score of the user with a given id, if one is stored. *)
Definition user_score (db : Db) (user_id : Z) : option Z :=
  option_map score (find (fun u => u_id u =? user_id) (users db)).

(** The check [progress and progress['is_solved']] of [submit_flag], on the
    Progress row the store holds for the pair. *)
Definition pair_solved (db : Db) (user_id challenge_id : Z) : bool :=
  already_solved (select_progress db user_id challenge_id).

(** The user has a Progress row with [is_solved] set for the challenge. *)
Definition has_solved_row (db : Db) (user_id challenge_id : Z) : bool :=
  existsb (fun p => progress_key user_id challenge_id p && is_solved p)
          (user_challenge_progress db).

Definition sum_points (cs : list Challenge) : Z :=
  fold_right (fun c acc => points c + acc) 0 cs.

(** Sum of the point values of the challenges the user has solved. *)
Definition solved_points (db : Db) (user_id : Z) : Z :=
  sum_points (filter (fun c => has_solved_row db user_id (c_id c))
                     (challenges db)).

Definition score_invariant (db : Db) : Prop :=
  forall u, In u (users db) -> score u = solved_points db (u_id u).

(** A call made on behalf of a stored user: [submit_flag] gets the id of a
    row of [users]. *)
Definition names_user (db : Db) (user_id : Z) : bool :=
  existsb (fun u => u_id u =? user_id) (users db).

Definition registered_caller (db : Db) (op : Op) : Prop :=
  match op with
  | SubmitFlag _ user_id _ _ => names_user db user_id = true
  | _ => True
  end.

Section Callers.

Variable sha256_hexdigest : str -> str.

Fixpoint callers_registered (db : Db) (ops : list Op) : Prop :=
  match ops with
  | [] => True
  | op :: rest =>
      registered_caller db op
      /\ callers_registered (run_op sha256_hexdigest db op) rest
  end.

End Callers.

Definition progress_pair (p : Progress) : Z * Z :=
  (p_user_id p, p_challenge_id p).

(** What the schema and the operations maintain whatever the calls: unique
    usernames (UNIQUE), unique challenge ids (PRIMARY KEY), one Progress row
    per pair (UNIQUE), Progress rows that name stored challenges, and, as no
    operation clears [is_active], challenges that are all active. *)
Record schema_inv (db : Db) : Prop := mkSchemaInv {
  inv_usernames : NoDup (map username (users db));
  inv_challenge_ids : NoDup (map c_id (challenges db));
  inv_pairs : NoDup (map progress_pair (user_challenge_progress db));
  inv_progress_challenge :
    forall p, In p (user_challenge_progress db) ->
              In (p_challenge_id p) (map c_id (challenges db));
  inv_active : forall c, In c (challenges db) -> is_active c = true
}.

(** The schema invariant together with what holds as long as flags are
    submitted for stored users only. *)
Record store_inv (db : Db) : Prop := mkStoreInv {
  inv_schema : schema_inv db;
  inv_progress_user :
    forall p, In p (user_challenge_progress db) ->
              In (p_user_id p) (map u_id (users db));
  inv_score : score_invariant db
}.

(** Two rows that agree on everything but the attempt limit, resp. the
    attempt counter. *)
Definition same_but_max_attempts (a b : Challenge) : Prop :=
  c_id a = c_id b /\ title a = title b /\ description a = description b
  /\ category a = category b /\ flag a = flag b /\ points a = points b
  /\ is_active a = is_active b /\ c_created_at a = c_created_at b.

Definition same_but_attempts_count (a b : Progress) : Prop :=
  p_id a = p_id b /\ p_user_id a = p_user_id b
  /\ p_challenge_id a = p_challenge_id b /\ is_solved a = is_solved b
  /\ solved_at a = solved_at b /\ locked_until a = locked_until b.

Definition differ_only_in_attempt_limits (d1 d2 : Db) : Prop :=
  users d1 = users d2
  /\ submissions d1 = submissions d2
  /\ Forall2 same_but_max_attempts (challenges d1) (challenges d2)
  /\ Forall2 same_but_attempts_count (user_challenge_progress d1)
                                     (user_challenge_progress d2).

(** The attempt counter of the i-th Progress row (0 past the end). *)
Definition attempts_at (db : Db) (i : nat) : Z :=
  nth i (map attempts_count (user_challenge_progress db)) 0.

(** The identifiers a sequence of registrations returned. *)
Fixpoint returned_ids (rs : list (option Z)) : list Z :=
  match rs with
  | [] => []
  | Some i :: rest => i :: returned_ids rest
  | None :: rest => returned_ids rest
  end.

(** The messages of [submit_flag]. *)
Definition msg_not_found : str := py "Challenge not found".
Definition msg_already_solved : str := py "Challenge already solved".
Definition msg_incorrect : str := py "Incorrect flag. Try again!".
Definition msg_correct (n : Z) : str :=
  py "Correct! You earned " ++ str_of_int n ++ py " points!".

(** The comparison of two leaderboard entries: higher score first, and on
    equal scores the earlier [created_at] first. *)
Definition ranks_before (a b : str * Z * Timestamp) : Prop :=
  let '(_, sa, ta) := a in
  let '(_, sb, tb) := b in
  sb < sa \/ (sa = sb /\ (ta <= tb)%N).

(** ** A concrete store

    Concrete runs need some function in the place of the hash; the ones
    below use the identity.  [demo_db] holds one challenge worth 100 points
    with flag "flag{test}" and the users alice and bob. *)

Definition plain_digest (s : str) : str := s.

Definition t0 : Clock := mkClock 1000%N 1000%N.
Definition t1 : Clock := mkClock 2000%N 2000%N.

Definition demo_ops : list Op :=
  [ CreateChallenge t0 (py "Warmup") (py "Say hello") (py "misc")
      (py "flag{test}") 100 (-1);
    CreateUser t0 (py "alice") (py "wonderland") false;
    CreateUser t1 (py "bob") (py "builder") false ].

Definition demo_db : Db := run plain_digest empty_db demo_ops.

Definition demo_challenge : Challenge :=
  mkChallenge 1 (py "Warmup") (py "Say hello") (py "misc") (py "flag{test}")
    100 (-1) true 1000%N.

(** [demo_db] with another attempt limit on the challenge. *)
Definition demo_db_limited : Db :=
  mkDb (users demo_db)
       [mkChallenge 1 (py "Warmup") (py "Say hello") (py "misc")
          (py "flag{test}") 100 3 true 1000%N]
       (submissions demo_db) (user_challenge_progress demo_db).

(** [demo_db] after alice solved the challenge. *)
Definition demo_solved_db : Db :=
  fst (submit_flag t1 demo_db 1 1 (py " flag{test} ")).

(** alice, then bob, then alice with the right flag. *)
Definition registered_ops : list Op :=
  demo_ops ++ [ SubmitFlag t1 1 1 (py " flag{test} ") ].

(** A flag is submitted for user id 1 before any user is registered, and
    the first registration then receives that id. *)
Definition unregistered_ops : list Op :=
  [ CreateChallenge t0 (py "Warmup") (py "Say hello") (py "misc")
      (py "flag{test}") 100 (-1);
    SubmitFlag t0 1 1 (py "flag{test}");
    CreateUser t1 (py "alice") (py "wonderland") false ].

(** ** [get_user_progress]

    The first SELECT fetches (username, score) of the user.  The second
    joins each challenge with the Progress rows of the user that name it and
    are solved, whether or not the challenge is active, and orders the
    result by [solved_at], where SQLite puts NULL first. *)

Definition solved_at_leb (a b : option Timestamp) : bool :=
  match a, b with
  | None, _ => true
  | Some _, None => false
  | Some x, Some y => (x <=? y)%N
  end.

Definition solved_join (db : Db) (user_id : Z) : list (Challenge * Progress) :=
  flat_map
    (fun c =>
       map (pair c)
           (filter (fun p => (c_id c =? p_challenge_id p)
                             && (p_user_id p =? user_id) && is_solved p)
                   (user_challenge_progress db)))
    (challenges db).

Definition by_solved_at_asc (a b : Challenge * Progress) : bool :=
  solved_at_leb (solved_at (snd a)) (solved_at (snd b)).

Definition progress_row (cp : Challenge * Progress)
    : str * Z * option Timestamp :=
  (title (fst cp), points (fst cp), solved_at (snd cp)).

Definition get_user_progress (db : Db) (user_id : Z)
    : option (str * Z) * list (str * Z * option Timestamp) :=
  let user :=
    option_map (fun u => (username u, score u))
               (fetchone (fun u => u_id u =? user_id) (users db)) in
  let solved_challenges :=
    map progress_row (order_by by_solved_at_asc (solved_join db user_id)) in
  (user, solved_challenges).

(** ** Notions for the further properties *)

(** Number of Submission rows of a pair, and of those marked correct. *)
Definition submission_of (user_id challenge_id : Z) (s : Submission) : bool :=
  (s_user_id s =? user_id) && (s_challenge_id s =? challenge_id).

Definition count_submissions (db : Db) (user_id challenge_id : Z) : Z :=
  Z.of_nat (List.length (filter (submission_of user_id challenge_id)
                           (submissions db))).

Definition count_correct (db : Db) (user_id challenge_id : Z) : Z :=
  Z.of_nat (List.length (filter (fun s => submission_of user_id challenge_id s
                                     && is_correct s)
                           (submissions db))).

(** The attempt counter of the pair's Progress row, 0 without a row. *)
Definition pair_attempts (db : Db) (user_id challenge_id : Z) : Z :=
  match select_progress db user_id challenge_id with
  | Some p => attempts_count p
  | None => 0
  end.

(** Total of the points column of a progress listing. *)
Definition listed_points (rows : list (str * Z * option Timestamp)) : Z :=
  fold_right (fun r acc => snd (fst r) + acc) 0 rows.

(** The ids 1, 2, ..., n. *)
Definition first_ids (n : nat) : list Z := map Z.of_nat (seq 1 n).

(** Two user rows that agree on everything but the score. *)
Definition same_but_score (a b : User) : Prop :=
  u_id a = u_id b /\ username a = username b
  /\ password_hash a = password_hash b /\ is_organizer a = is_organizer b
  /\ u_created_at a = u_created_at b.


(** The submission log and the Progress rows tell the same story. *)
Definition log_inv (db : Db) : Prop :=
  forall u c,
    count_submissions db u c = pair_attempts db u c
    /\ count_correct db u c = (if pair_solved db u c then 1 else 0).

(** A Progress row as [submit_flag] writes it: at least one attempt, a
    solve time exactly when solved, and no lock. *)
Definition progress_well_formed (p : Progress) : Prop :=
  1 <= attempts_count p
  /\ (is_solved p = true -> exists t, solved_at p = Some t)
  /\ (is_solved p = false -> solved_at p = None)
  /\ locked_until p = None.

(** A Submission row that names a stored challenge and whose [is_correct]
    says whether its text, trimmed, is that challenge's flag, trimmed. *)
Definition submission_truthful (db : Db) (s : Submission) : Prop :=
  exists c,
    In c (challenges db) /\ c_id c = s_challenge_id s
    /\ is_correct s = str_eqb (strip (submitted_flag s)) (strip (flag c)).

(** ** [utils.py]: text helpers *)

(** [len(s)]. *)
Definition len (s : str) : Z := Z.of_nat (List.length s).

(** [s[:k]]: a negative [k] counts from the end, and a stop before the start
    gives the empty string. *)
Definition slice_to (s : str) (k : Z) : str :=
  if k <? 0 then firstn (Z.to_nat (Z.max 0 (len s + k))) s
  else firstn (Z.to_nat k) s.

Definition truncate_text (text : str) (max_length : Z) : str :=
  if len text <=? max_length then text
  else slice_to text (max_length - 3) ++ py "...".

(** [sep.join(parts)]. *)
Fixpoint join (sep : str) (parts : list str) : str :=
  match parts with
  | [] => []
  | [p] => p
  | p :: rest => p ++ sep ++ join sep rest
  end.

Definition space : char := 32%N.

(** [f"{s:^15}"]: [s] centred in a field of 15 characters, the odd space
    going to the right; a longer [s] is kept whole. *)
Definition center15 (s : str) : str :=
  let padding := 15 - len s in
  if padding <=? 0 then s
  else
    let left := padding / 2 in
    repeat space (Z.to_nat left) ++ s
    ++ repeat space (Z.to_nat (padding - left)).

(** ANSI colour codes of [Colors]. *)
Definition ESC : str := [27%N].
Definition RED : str := ESC ++ py "[91m".
Definition YELLOW : str := ESC ++ py "[93m".
Definition CYAN : str := ESC ++ py "[96m".
Definition BOLD : str := ESC ++ py "[1m".
Definition END_ : str := ESC ++ py "[0m".

Definition newline : str := [10%N].

(** [print(s)] writes [s] and a newline; the functions below return the
    text they write. *)
Definition print (s : str) : str := s ++ newline.

(** [print_error(text)]; the cross is U+2717. *)
Definition print_error (text : str) : str :=
  print (RED ++ [10007%N; 32%N] ++ text ++ END_).

(** The local [header_line] and [separator] of [print_table_header], and
    [row_line] of [print_table_row]; cells are given by their [str()]. *)
Definition header_line (headers : list str) : str :=
  join (py " | ") (map center15 headers).

Definition separator (headers : list str) : str :=
  repeat 45%N (List.length (header_line headers)).

Definition print_table_header (headers : list str) : str :=
  print (newline ++ BOLD ++ header_line headers ++ END_)
  ++ print (separator headers).

Definition row_line (values : list str) : str :=
  join (py " | ") (map center15 values).

Definition print_table_row (values : list str) : str :=
  print (row_line values).

(** ** [utils.py]: console input

    The keyboard is a list of events, each a line typed or Ctrl+C; [input()]
    consumes one, and raises [EOFError] when none is left.  Standard output
    is the text written so far. *)

Inductive Key := Line (s : str) | KeyboardInterrupt.

Inductive Exn := EOFError | AttributeError.

Inductive Result (A : Type) :=
| Returned (a : A)
| Raised (e : Exn).
Arguments Returned {A} a.
Arguments Raised {A} e.

(** The [input_type] argument: [int], [float], or anything else. *)
Inductive InputType := AsInt | AsFloat | AsStr.

Section Console.

(** Python's [float], [int(s)] and [float(s)] on a string ([None] for
    [ValueError]) and [str.lower], taken as given. *)
Variable Float : Type.
Variable int_of_str : str -> option Z.
Variable float_of_str : str -> option Float.
Variable str_lower : str -> str.

Definition parsed (ty : InputType) : Type :=
  match ty with
  | AsInt => Z
  | AsFloat => Float
  | AsStr => str
  end.

(** [input_type.__name__] in the message for a [ValueError]. *)
Definition type_name (ty : InputType) : str :=
  match ty with
  | AsInt => py "int"
  | AsFloat => py "float"
  | AsStr => py "str"
  end.

Definition is_blank (s : str) : bool :=
  match strip s with
  | [] => true
  | _ => false
  end.

(** The conversion of the line read; [None] stands for [ValueError]. *)
Definition convert (ty : InputType) (user_input : str) : option (parsed ty) :=
  match ty return option (parsed ty) with
  | AsInt => int_of_str user_input
  | AsFloat => float_of_str user_input
  | AsStr => Some (strip user_input)
  end.

(** [get_user_input]: the value returned ([None] after Ctrl+C), the keys
    left and the output.  Every turn of the loop consumes one key. *)
Fixpoint get_user_input (prompt : str) (ty : InputType) (required : bool)
    (keys : list Key) (out : str)
    : Result (option (parsed ty)) * list Key * str :=
  let out1 := out ++ CYAN ++ prompt ++ END_ in
  match keys with
  | [] => (Raised EOFError, [], out1)
  | KeyboardInterrupt :: rest =>
      (Returned None, rest,
       out1 ++ print (newline ++ YELLOW ++ py "Operation cancelled." ++ END_))
  | Line user_input :: rest =>
      if is_blank user_input && required
      then get_user_input prompt ty required rest
             (out1 ++ print_error
                        (py "This field is required. Please try again."))
      else
        match convert ty user_input with
        | Some v => (Returned (Some v), rest, out1)
        | None =>
            get_user_input prompt ty required rest
              (out1 ++ print_error (py "Please enter a valid "
                                    ++ type_name ty ++ py "."))
        end
  end.

(** [confirm_action]: [response.lower()] on the [None] that Ctrl+C yields
    raises [AttributeError]. *)
Definition confirm_action (message : str) (keys : list Key) (out : str)
    : Result bool * list Key * str :=
  match get_user_input (message ++ py " (y/N): ") AsStr false keys out with
  | (Raised e, keys', out') => (Raised e, keys', out')
  | (Returned None, keys', out') => (Raised AttributeError, keys', out')
  | (Returned (Some response), keys', out') =>
      (Returned (str_eqb (str_lower response) (py "y")
                 || str_eqb (str_lower response) (py "yes")),
       keys', out')
  end.

(** [get_menu_choice]: the loop, with a bound on its turns; [int(None)]
    after Ctrl+C raises the [TypeError] that returns [None]. *)
Fixpoint get_menu_choice_loop (turns : nat) (max_options : Z)
    (keys : list Key) (out : str)
    : option (Result (option Z) * list Key * str) :=
  match turns with
  | O => None
  | S turns' =>
      match get_user_input (py "Enter your choice: ") AsStr true keys out with
      | (Raised e, keys', out') => Some (Raised e, keys', out')
      | (Returned None, keys', out') => Some (Returned None, keys', out')
      | (Returned (Some text), keys', out') =>
          match int_of_str text with
          | Some choice =>
              if (1 <=? choice) && (choice <=? max_options)
              then Some (Returned (Some choice), keys', out')
              else get_menu_choice_loop turns' max_options keys'
                     (out' ++ print_error
                                (py "Please enter a number between 1 and "
                                 ++ str_of_int max_options ++ py "."))
          | None =>
              get_menu_choice_loop turns' max_options keys'
                (out' ++ print_error (py "Please enter a valid number."))
          end
      end
  end.

(** Each turn consumes a key, so as many turns as there are keys, and one
    more to meet the end of the input, are enough. *)
Definition get_menu_choice (max_options : Z) (keys : list Key) (out : str)
    : option (Result (option Z) * list Key * str) :=
  get_menu_choice_loop (S (List.length keys)) max_options keys out.

End Console.

(** ** Notions for trimming, decimal numerals and the 64-bit range *)



(** The integer a decimal numeral denotes: ASCII digits, with an optional
    minus sign in front. *)
Definition string_of_str (s : str) : string :=
  string_of_list_ascii (map ascii_of_N s).

Definition decimal_value (s : str) : option Z :=
  if forallb (fun c => c <? 256)%N s
  then option_map Z.of_int (NilZero.int_of_string (string_of_str s))
  else None.

(** The range of an SQLite INTEGER.  Within it the store's arithmetic is
    the arithmetic of [Z]; a sum that leaves it is stored as a REAL. *)
Definition fits_int64 (z : Z) : Prop := - 2 ^ 63 <= z < 2 ^ 63.


Definition scores_fit (db : Db) : Prop :=
  forall u, In u (users db) -> fits_int64 (score u).

(** The integer arguments of a call are ones the binding can pass on. *)
Definition args_fit (op : Op) : Prop :=
  match op with
  | CreateUser _ _ _ _ => True
  | CreateChallenge _ _ _ _ _ points_ max_attempts_ =>
      fits_int64 points_ /\ fits_int64 max_attempts_
  | SubmitFlag _ user_id challenge_id _ =>
      fits_int64 user_id /\ fits_int64 challenge_id
  end.

Section Range.

Variable sha256_hexdigest : str -> str.

(** A run in which every call has arguments in range and leaves every
    score in range, so that no score update overflows. *)
Fixpoint run_fits (db : Db) (ops : list Op) : Prop :=
  match ops with
  | [] => True
  | op :: rest =>
      args_fit op
      /\ scores_fit (run_op sha256_hexdigest db op)
      /\ run_fits (run_op sha256_hexdigest db op) rest
  end.

End Range.

(** [demo_db] after a correct flag was submitted for user id 9, which
    names no stored user. *)
Definition ghost_solved_db : Db :=
  fst (submit_flag t0 demo_db 9 1 (py "flag{test}")).

(** A users table with a tie on the score and a user who has not scored. *)
Definition ranked_db : Db :=
  mkDb [ mkUser 1 (py "ann") (py "h1") 50 false 10%N;
         mkUser 2 (py "bea") (py "h2") 100 false 30%N;
         mkUser 3 (py "cy") (py "h3") 100 false 20%N;
         mkUser 4 (py "dee") (py "h4") 0 false 5%N ]
       [] [] [].

(** * Properties *)

(** ** Strings and row ids *)

Lemma str_eqb_eq (a b : str) : str_eqb a b = true <-> a = b.
Proof.
  revert b; induction a as [|x a IH]; intros [|y b]; simpl;
    try (split; [discriminate | discriminate]); try tauto.
  rewrite andb_true_iff, N.eqb_eq, IH.
  split; [intros [-> ->]; reflexivity | intros H; inversion H; auto].
Qed.

Lemma str_eqb_refl (a : str) : str_eqb a a = true.
Proof. apply str_eqb_eq; reflexivity. Qed.

Lemma str_eqb_neq (a b : str) : str_eqb a b = false <-> a <> b.
Proof.
  rewrite <- str_eqb_eq. destruct (str_eqb a b); split; congruence.
Qed.

Lemma fold_max_ge (l : list Z) (i : Z) : i <= fold_left Z.max l i.
Proof.
  revert i; induction l as [|x l IH]; intros i; simpl; [lia|].
  specialize (IH (Z.max i x)); lia.
Qed.

Lemma fold_max_bound (l : list Z) (i j : Z) :
  In j l -> j <= fold_left Z.max l i.
Proof.
  revert i; induction l as [|x l IH]; intros i; simpl; [tauto|].
  intros [->|Hin]; [|auto].
  pose proof (fold_max_ge l (Z.max i j)); lia.
Qed.

(** The id given to a new row is above every id in use. *)
Lemma next_rowid_above (ids : list Z) (i : Z) : In i ids -> i < next_rowid ids.
Proof.
  destruct ids as [|x r]; simpl; [tauto|].
  intros [->|Hin].
  - pose proof (fold_max_ge r i); lia.
  - pose proof (fold_max_bound r x i Hin); lia.
Qed.

Lemma next_rowid_fresh (ids : list Z) : ~ In (next_rowid ids) ids.
Proof. intros H; apply next_rowid_above in H; lia. Qed.

(** ** Row selection and in-place updates *)

Lemma find_update_where {A : Type} (key where_ : A -> bool) (set : A -> A)
    (rows : list A) :
  (forall r, key (set r) = key r) ->
  find key (update_where where_ set rows)
  = option_map (fun r => if where_ r then set r else r) (find key rows).
Proof.
  intros Hkey; induction rows as [|r rows IH]; simpl; [reflexivity|].
  destruct (where_ r) eqn:Hw.
  - rewrite Hkey. destruct (key r); simpl; [rewrite Hw; reflexivity | exact IH].
  - destruct (key r); simpl; [rewrite Hw; reflexivity | exact IH].
Qed.

Lemma find_app_none {A : Type} (f : A -> bool) (l1 l2 : list A) :
  find f l1 = None -> find f (l1 ++ l2) = find f l2.
Proof.
  induction l1 as [|x l1 IH]; simpl; [reflexivity|].
  destruct (f x); [discriminate | exact IH].
Qed.

Lemma find_app_some {A : Type} (f : A -> bool) (l1 l2 : list A) (x : A) :
  find f l1 = Some x -> find f (l1 ++ l2) = Some x.
Proof.
  induction l1 as [|y l1 IH]; simpl; [discriminate|].
  destruct (f y); [trivial | exact IH].
Qed.

Lemma progress_key_true (u c : Z) (p : Progress) :
  progress_key u c p = true <-> p_user_id p = u /\ p_challenge_id p = c.
Proof. unfold progress_key. rewrite andb_true_iff, !Z.eqb_eq. tauto. Qed.

(** ** The three outcomes of [submit_flag] *)

Section SubmitFlag.

Variables (clk : Clock) (db : Db) (user_id challenge_id : Z) (sub : str).

Lemma submit_flag_not_found :
  get_challenge_by_id db challenge_id = None ->
  submit_flag clk db user_id challenge_id sub = (db, (false, msg_not_found)).
Proof. unfold submit_flag; intros ->; reflexivity. Qed.

Lemma submit_flag_solved (c : Challenge) :
  get_challenge_by_id db challenge_id = Some c ->
  pair_solved db user_id challenge_id = true ->
  submit_flag clk db user_id challenge_id sub
  = (db, (false, msg_already_solved)).
Proof.
  unfold submit_flag, pair_solved; intros -> ->; reflexivity.
Qed.

(** The progress table after a recorded attempt. *)
Lemma submit_flag_recorded (c : Challenge) :
  get_challenge_by_id db challenge_id = Some c ->
  pair_solved db user_id challenge_id = false ->
  let ok := str_eqb (strip sub) (strip (flag c)) in
  let at_ := if ok then Some (datetime_now clk) else None in
  let db' := fst (submit_flag clk db user_id challenge_id sub) in
  snd (submit_flag clk db user_id challenge_id sub)
  = (if ok then (true, msg_correct (points c)) else (false, msg_incorrect))
  /\ challenges db' = challenges db
  /\ submissions db'
     = submissions db
       ++ [mkSubmission (next_rowid (map s_id (submissions db))) user_id
             challenge_id sub ok (current_timestamp clk)]
  /\ user_challenge_progress db'
     = match select_progress db user_id challenge_id with
       | Some _ =>
           user_challenge_progress
             (update_progress db user_id challenge_id ok at_)
       | None =>
           user_challenge_progress
             (insert_progress db user_id challenge_id ok at_)
       end
  /\ users db'
     = if ok then users (update_score db (points c) user_id) else users db.
Proof.
  intros Hc Hs; unfold submit_flag, pair_solved in *; rewrite Hc, Hs.
  cbv zeta.
  destruct (str_eqb (strip sub) (strip (flag c)));
    destruct (select_progress db user_id challenge_id); simpl;
    repeat split; reflexivity.
Qed.

End SubmitFlag.


Lemma select_progress_update (db : Db) (u c u' c' : Z) (solved : bool)
    (at_ : option Timestamp) :
  select_progress (update_progress db u c solved at_) u' c'
  = option_map
      (fun p => if progress_key u c p
                then mkProgress (p_id p) (p_user_id p) (p_challenge_id p)
                       solved (attempts_count p + 1) at_ (locked_until p)
                else p)
      (select_progress db u' c').
Proof.
  unfold select_progress, update_progress, fetchone; simpl.
  apply find_update_where; reflexivity.
Qed.

Lemma select_progress_insert (db : Db) (u c u' c' : Z) (solved : bool)
    (at_ : option Timestamp) :
  select_progress (insert_progress db u c solved at_) u' c'
  = match select_progress db u' c' with
    | Some p => Some p
    | None =>
        if (u =? u') && (c =? c')
        then Some (mkProgress (next_rowid (map p_id (user_challenge_progress db)))
                     u c solved 1 at_ None)
        else None
    end.
Proof.
  unfold select_progress, insert_progress, fetchone; simpl.
  destruct (find (progress_key u' c') (user_challenge_progress db)) eqn:Hf.
  - erewrite find_app_some; eauto.
  - rewrite find_app_none by assumption. simpl. unfold progress_key; simpl.
    destruct ((u =? u') && (c =? c')); reflexivity.
Qed.

(** The Progress row of the pair after a recorded attempt: one more attempt
    than before (1 on a first attempt), solved iff the flag matched. *)
Lemma select_progress_recorded (clk : Clock) (db : Db) (u ch : Z) (sub : str)
    (c : Challenge) :
  get_challenge_by_id db ch = Some c ->
  pair_solved db u ch = false ->
  exists p,
    select_progress (fst (submit_flag clk db u ch sub)) u ch = Some p
    /\ p_user_id p = u /\ p_challenge_id p = ch
    /\ is_solved p = str_eqb (strip sub) (strip (flag c))
    /\ attempts_count p
       = match select_progress db u ch with
         | Some p0 => attempts_count p0 + 1
         | None => 1
         end.
Proof.
  intros Hc Hs.
  destruct (submit_flag_recorded clk db u ch sub c Hc Hs)
    as (_ & _ & _ & Hp & _).
  unfold select_progress at 1. rewrite Hp.
  destruct (select_progress db u ch) as [p0|] eqn:Hsel.
  - fold (select_progress (update_progress db u ch
            (str_eqb (strip sub) (strip (flag c)))
            (if str_eqb (strip sub) (strip (flag c))
             then Some (datetime_now clk) else None)) u ch).
    rewrite select_progress_update, Hsel; simpl.
    unfold select_progress, fetchone in Hsel.
    apply find_some in Hsel; destruct Hsel as [_ Hk]. rewrite Hk.
    apply progress_key_true in Hk; destruct Hk as [Hu Hch].
    eexists; split; [reflexivity|]; simpl; auto.
  - fold (select_progress (insert_progress db u ch
            (str_eqb (strip sub) (strip (flag c)))
            (if str_eqb (strip sub) (strip (flag c))
             then Some (datetime_now clk) else None)) u ch).
    rewrite select_progress_insert, Hsel, !Z.eqb_refl; simpl.
    eexists; split; [reflexivity|]; simpl; auto.
Qed.

(** ** Trimming *)





Lemma lstrip_idem (s : str) : lstrip (lstrip s) = lstrip s.
Proof.
  induction s as [|c s IH]; simpl; [reflexivity|].
  destruct (isspace c) eqn:Hc; [exact IH | simpl; rewrite Hc; reflexivity].
Qed.

Lemma lstrip_keeps_last (m : str) (c : char) :
  isspace c = false -> exists m', lstrip (m ++ [c]) = m' ++ [c].
Proof.
  intros Hc; induction m as [|x m IH]; simpl.
  - rewrite Hc. exists []. reflexivity.
  - destruct (isspace x); [exact IH | exists (x :: m); reflexivity].
Qed.


(** What [strip] returns has no whitespace left to strip. *)
Lemma strip_idem (s : str) : strip (strip s) = strip s.
Proof.
  unfold strip.
  assert (Hl : lstrip (rstrip (lstrip s)) = rstrip (lstrip s)).
  { pose proof (lstrip_idem s) as Hi.
    destruct (lstrip s) as [|c r] eqn:Hs; [reflexivity|].
    simpl in Hi. destruct (isspace c) eqn:Hc.
    - exfalso. clear Hi. revert Hs. clear - Hc.
      induction s as [|x s IH]; simpl; [discriminate|].
      destruct (isspace x) eqn:Hx; [exact IH|].
      intros H; inversion H; subst. congruence.
    - unfold rstrip. simpl (rev (c :: r)).
      destruct (lstrip_keeps_last (rev r) c Hc) as [m Hm]. rewrite Hm.
      rewrite rev_app_distr. simpl. rewrite Hc. reflexivity. }
  rewrite Hl. unfold rstrip at 1. unfold rstrip at 1.
  rewrite rev_involutive, lstrip_idem. reflexivity.
Qed.










(** ** Decimal numerals *)

Lemma string_of_str_py (s : string) : string_of_str (py s) = s.
Proof.
  unfold string_of_str, py, char_of_ascii. rewrite map_map.
  rewrite (map_ext _ (fun a => a)) by apply ascii_N_embedding.
  rewrite map_id. apply string_of_list_ascii_of_string.
Qed.

Lemma py_is_byte (s : string) : forallb (fun c => c <? 256)%N (py s) = true.
Proof.
  unfold py. induction (list_ascii_of_string s) as [|a l IH]; simpl;
    [reflexivity|].
  rewrite IH, andb_true_r. apply N.ltb_lt. apply N_ascii_bounded.
Qed.

(** The numeral [str(n)] denotes [n]. *)
Lemma decimal_value_str_of_int (n : Z) : decimal_value (str_of_int n) = Some n.
Proof.
  unfold decimal_value, str_of_int.
  rewrite py_is_byte, string_of_str_py, NilZero.isi.
  - simpl. f_equal. apply DecimalZ.of_to.
  - destruct n; simpl; try discriminate.
    intros H; inversion H as [Hp].
    apply (DecimalPos.Unsigned.to_uint_nonnil _ Hp).
  - destruct n; simpl; try discriminate.
    intros H; inversion H as [Hp].
    apply (DecimalPos.Unsigned.to_uint_nonnil _ Hp).
Qed.

(** ** The 64-bit range *)

Lemma fits_int64_check (z : Z) :
  (- 2 ^ 63 <=? z) && (z <? 2 ^ 63) = true -> fits_int64 z.
Proof.
  intros H. apply andb_true_iff in H. destruct H as [H1 H2].
  apply Z.leb_le in H1. apply Z.ltb_lt in H2. split; assumption.
Qed.

Lemma scores_fit_check (db : Db) :
  forallb (fun u => (- 2 ^ 63 <=? score u) && (score u <? 2 ^ 63)) (users db)
  = true ->
  scores_fit db.
Proof.
  intros H u Hu. apply fits_int64_check.
  rewrite forallb_forall in H. apply (H u Hu).
Qed.

(** ** Flag submission *)




Lemma update_where_none {A : Type} (where_ : A -> bool) (set : A -> A)
    (rows : list A) :
  (forall r, In r rows -> where_ r = false) ->
  update_where where_ set rows = rows.
Proof.
  induction rows as [|r rows IH]; simpl; intros H; [reflexivity|].
  rewrite (H r) by auto. f_equal. apply IH; auto.
Qed.

(** C10 (as amended).  [submit_flag] does not look the user up: for an id
    that names no stored user, an active challenge whose pair with that id
    is not already solved, and a correct flag, it answers
    "Correct! You earned N points!" with N the decimal numeral of the
    challenge's points, appends a Submission row for that id and leaves the
    pair with a solved Progress row naming that id (appended when the pair
    had none), while the score update finds no row and the users table
    stays as it was. *)
Theorem submit_flag_ignores_missing_user
    (clk : Clock) (db : Db) (user_id challenge_id : Z) (sub : str)
    (c : Challenge) :
  (forall u, In u (users db) -> u_id u <> user_id) ->
  get_challenge_by_id db challenge_id = Some c ->
  pair_solved db user_id challenge_id = false ->
  strip sub = strip (flag c) ->
  let r := submit_flag clk db user_id challenge_id sub in
  (exists numeral,
     snd r = (true, py "Correct! You earned " ++ numeral ++ py " points!")
     /\ decimal_value numeral = Some (points c))
  /\ submissions (fst r)
     = submissions db
       ++ [mkSubmission (next_rowid (map s_id (submissions db))) user_id
             challenge_id sub true (current_timestamp clk)]
  /\ (select_progress db user_id challenge_id = None ->
      user_challenge_progress (fst r)
      = user_challenge_progress db
        ++ [mkProgress (next_rowid (map p_id (user_challenge_progress db)))
              user_id challenge_id true 1 (Some (datetime_now clk)) None])
  /\ (exists p,
        select_progress (fst r) user_id challenge_id = Some p
        /\ p_user_id p = user_id /\ p_challenge_id p = challenge_id
        /\ is_solved p = true)
  /\ users (fst r) = users db.
Proof.
  intros Hno Hc Hs Hok r. apply str_eqb_eq in Hok.
  destruct (submit_flag_recorded clk db user_id challenge_id sub c Hc Hs)
    as (Hres & _ & Hsub & Hp & Hus).
  rewrite Hok in Hres, Hsub, Hp, Hus. fold r in Hres, Hsub, Hp, Hus.
  destruct (select_progress_recorded clk db user_id challenge_id sub c Hc Hs)
    as (p & Hsel & Hu & Hch & Hsolved & _).
  fold r in Hsel. rewrite Hok in Hsolved.
  split.
  { exists (str_of_int (points c)).
    split; [exact Hres | apply decimal_value_str_of_int]. }
  split; [exact Hsub|].
  split; [intros Hnone; rewrite Hp, Hnone; reflexivity|].
  split; [exists p; auto|].
  rewrite Hus; unfold update_score; simpl.
  apply update_where_none. intros u Hin. apply Z.eqb_neq. auto.
Qed.

(** ** What the schema maintains *)

Lemma NoDup_snoc {A : Type} (l : list A) (x : A) :
  NoDup l -> ~ In x l -> NoDup (l ++ [x]).
Proof.
  intros Hl Hx. apply (Permutation_NoDup (l := x :: l)).
  - apply Permutation_cons_append.
  - constructor; assumption.
Qed.

Lemma map_update_where {A B : Type} (f : A -> B) (where_ : A -> bool)
    (set : A -> A) (rows : list A) :
  (forall r, f (set r) = f r) ->
  map f (update_where where_ set rows) = map f rows.
Proof.
  intros Hf; unfold update_where; rewrite map_map.
  apply map_ext; intros r. destruct (where_ r); auto.
Qed.

Lemma existsb_false_forall {A : Type} (f : A -> bool) (l : list A) :
  existsb f l = false <-> forall x, In x l -> f x = false.
Proof.
  split.
  - intros H x Hin. destruct (f x) eqn:Hfx; [|reflexivity].
    rewrite <- H. symmetry. apply existsb_exists. eauto.
  - intros H. destruct (existsb f l) eqn:He; [|reflexivity].
    apply existsb_exists in He. destruct He as (x & Hin & Hfx).
    rewrite (H x Hin) in Hfx; discriminate.
Qed.

Lemma get_challenge_by_id_some (db : Db) (ch : Z) (c : Challenge) :
  get_challenge_by_id db ch = Some c ->
  In c (challenges db) /\ c_id c = ch /\ is_active c = true.
Proof.
  unfold get_challenge_by_id, fetchone; intros H.
  apply find_some in H. destruct H as [Hin H].
  apply andb_true_iff in H. destruct H as [H1 H2].
  apply Z.eqb_eq in H1. auto.
Qed.

Lemma select_progress_none (db : Db) (u c : Z) :
  select_progress db u c = None ->
  ~ In (u, c) (map progress_pair (user_challenge_progress db)).
Proof.
  unfold select_progress, fetchone; intros H Hin.
  apply in_map_iff in Hin. destruct Hin as (p & Hp & Hin).
  pose proof (find_none _ _ H p Hin) as Hk.
  unfold progress_pair in Hp. inversion Hp; subst.
  unfold progress_key in Hk. rewrite !Z.eqb_refl in Hk. discriminate.
Qed.

(** Effect of each call on the four tables. *)

Lemma submit_flag_tables (clk : Clock) (db : Db) (u ch : Z) (sub : str) :
  let db' := fst (submit_flag clk db u ch sub) in
  db' = db
  \/ exists c ok at_,
       get_challenge_by_id db ch = Some c
       /\ pair_solved db u ch = false
       /\ ok = str_eqb (strip sub) (strip (flag c))
       /\ challenges db' = challenges db
       /\ user_challenge_progress db'
          = match select_progress db u ch with
            | Some _ =>
                user_challenge_progress (update_progress db u ch ok at_)
            | None =>
                user_challenge_progress (insert_progress db u ch ok at_)
            end
       /\ users db'
          = if ok then users (update_score db (points c) u) else users db.
Proof.
  intros db'; subst db'.
  destruct (get_challenge_by_id db ch) as [c|] eqn:Hc.
  - destruct (pair_solved db u ch) eqn:Hs.
    + left. rewrite (submit_flag_solved clk db u ch sub c Hc Hs); reflexivity.
    + right.
      destruct (submit_flag_recorded clk db u ch sub c Hc Hs)
        as (_ & Hch & _ & Hp & Hus).
      exists c, (str_eqb (strip sub) (strip (flag c))),
        (if str_eqb (strip sub) (strip (flag c))
         then Some (datetime_now clk) else None).
      auto 10.
  - left. rewrite (submit_flag_not_found clk db u ch sub Hc); reflexivity.
Qed.

Section Invariants.

Variable sha256_hexdigest : str -> str.

Lemma create_user_tables (clk : Clock) (db : Db) (n p : str) (o : bool) :
  let r := create_user sha256_hexdigest clk db n p o in
  (existsb (fun u => str_eqb (username u) n) (users db) = true
   /\ r = (db, None))
  \/ (existsb (fun u => str_eqb (username u) n) (users db) = false
      /\ r = (mkDb (users db
                    ++ [mkUser (next_rowid (map u_id (users db))) n
                          (sha256_hexdigest p) 0 o (current_timestamp clk)])
                (challenges db) (submissions db)
                (user_challenge_progress db),
              Some (next_rowid (map u_id (users db))))).
Proof.
  unfold create_user, insert_user.
  destruct (existsb (fun u => str_eqb (username u) n) (users db));
    [left | right]; auto.
Qed.

Lemma existsb_username_false (db : Db) (n : str) :
  existsb (fun u => str_eqb (username u) n) (users db) = false <->
  ~ In n (map username (users db)).
Proof.
  rewrite existsb_false_forall. split.
  - intros H Hin. apply in_map_iff in Hin. destruct Hin as (u & <- & Hin).
    specialize (H u Hin). rewrite str_eqb_refl in H. discriminate.
  - intros H u Hin. apply str_eqb_neq. intros <-. apply H.
    apply in_map; assumption.
Qed.

Lemma schema_inv_run_op (db : Db) (op : Op) :
  schema_inv db -> schema_inv (run_op sha256_hexdigest db op).
Proof.
  intros [Hn Hc Hp Hpc Ha]. destruct op as [clk n p o|clk t d c f pts m|clk u ch sub];
    simpl.
  - destruct (create_user_tables clk db n p o) as [[_ ->]|[He ->]]; simpl.
    + constructor; assumption.
    + constructor; simpl; auto.
      rewrite map_app; simpl. apply NoDup_snoc; [assumption|].
      apply existsb_username_false; assumption.
  - constructor; simpl; auto.
    + rewrite map_app; simpl. apply NoDup_snoc; [assumption|].
      apply next_rowid_fresh.
    + intros q Hq. rewrite map_app. apply in_or_app. left; auto.
    + intros c0 Hin. apply in_app_or in Hin. destruct Hin as [Hin|[<-|[]]]; auto.
  - destruct (submit_flag_tables clk db u ch sub)
      as [->|(c & ok & at_ & Hg & Hs & _ & Hch & Hpr & Hus)];
      [constructor; assumption|].
    apply get_challenge_by_id_some in Hg. destruct Hg as (Hin & Hid & _).
    constructor.
    + rewrite Hus. destruct ok; [|assumption].
      unfold update_score; simpl. rewrite map_update_where by reflexivity.
      assumption.
    + rewrite Hch; assumption.
    + rewrite Hpr. destruct (select_progress db u ch) eqn:Hsel.
      * unfold update_progress; simpl.
        rewrite map_update_where by reflexivity. assumption.
      * unfold insert_progress; simpl. rewrite map_app; simpl.
        apply NoDup_snoc; [assumption|].
        apply select_progress_none; assumption.
    + rewrite Hpr, Hch. destruct (select_progress db u ch) eqn:Hsel.
      * unfold update_progress; simpl. intros q Hq.
        unfold update_where in Hq. apply in_map_iff in Hq.
        destruct Hq as (q0 & <- & Hq0).
        destruct (progress_key u ch q0); simpl; auto.
      * unfold insert_progress; simpl. intros q Hq.
        apply in_app_or in Hq. destruct Hq as [Hq|[<-|[]]]; auto.
        simpl. rewrite <- Hid. apply in_map; assumption.
    + rewrite Hch; assumption.
Qed.

Lemma schema_inv_empty : schema_inv empty_db.
Proof. constructor; simpl; try constructor; intros ? []. Qed.

Lemma schema_inv_run (db : Db) (ops : list Op) :
  schema_inv db -> schema_inv (run sha256_hexdigest db ops).
Proof.
  revert db; induction ops as [|op ops IH]; intros db H; simpl; [exact H|].
  apply IH. apply schema_inv_run_op; exact H.
Qed.


(** ** Scores and solved Progress rows *)

Lemma existsb_solved_first (u c : Z) (l : list Progress) :
  NoDup (map progress_pair l) ->
  existsb (fun p => progress_key u c p && is_solved p) l
  = already_solved (find (progress_key u c) l).
Proof.
  induction l as [|p l IH]; simpl; intros Hnd; [reflexivity|].
  inversion Hnd as [|? ? Hnotin Hnd']; subst.
  destruct (progress_key u c p) eqn:Hk; simpl; [|auto].
  assert (Hrest : existsb (fun q => progress_key u c q && is_solved q) l
                  = false).
  { apply existsb_false_forall. intros q Hq.
    destruct (progress_key u c q) eqn:Hkq; [|reflexivity].
    exfalso. apply Hnotin.
    apply progress_key_true in Hk, Hkq.
    replace (progress_pair p) with (progress_pair q)
      by (unfold progress_pair; destruct Hk, Hkq; congruence).
    apply in_map; assumption. }
  rewrite Hrest. apply orb_false_r.
Qed.

Lemma has_solved_row_pair_solved (db : Db) (u c : Z) :
  NoDup (map progress_pair (user_challenge_progress db)) ->
  has_solved_row db u c = pair_solved db u c.
Proof. apply existsb_solved_first. Qed.

Lemma select_progress_some_key (db : Db) (u c : Z) (p : Progress) :
  select_progress db u c = Some p -> p_user_id p = u /\ p_challenge_id p = c.
Proof.
  unfold select_progress, fetchone; intros H. apply find_some in H.
  apply progress_key_true. tauto.
Qed.

(** After a recorded attempt the pair is solved iff the flag matched; every
    other pair is as before. *)
Lemma pair_solved_recorded (clk : Clock) (db : Db) (u ch : Z) (sub : str)
    (c : Challenge) (u' c' : Z) :
  get_challenge_by_id db ch = Some c ->
  pair_solved db u ch = false ->
  pair_solved (fst (submit_flag clk db u ch sub)) u' c'
  = if (u' =? u) && (c' =? ch)
    then str_eqb (strip sub) (strip (flag c))
    else pair_solved db u' c'.
Proof.
  intros Hc Hs.
  destruct (submit_flag_recorded clk db u ch sub c Hc Hs)
    as (_ & _ & _ & Hp & _).
  set (ok := str_eqb (strip sub) (strip (flag c))) in *.
  set (at_ := if ok then Some (datetime_now clk) else None) in *.
  unfold pair_solved at 1. unfold select_progress at 1. rewrite Hp.
  destruct (select_progress db u ch) as [p0|] eqn:Hsel.
  - fold (select_progress (update_progress db u ch ok at_) u' c').
    rewrite select_progress_update.
    unfold pair_solved at 1.
    destruct (select_progress db u' c') as [q|] eqn:Hq; simpl.
    + apply select_progress_some_key in Hq. destruct Hq as [Hqu Hqc].
      unfold progress_key. rewrite Hqu, Hqc.
      destruct ((u' =? u) && (c' =? ch)); reflexivity.
    + destruct ((u' =? u) && (c' =? ch)) eqn:Hk; [|reflexivity].
      apply andb_true_iff in Hk. rewrite !Z.eqb_eq in Hk. destruct Hk; subst.
      congruence.
  - fold (select_progress (insert_progress db u ch ok at_) u' c').
    rewrite select_progress_insert.
    unfold pair_solved at 1.
    rewrite (Z.eqb_sym u u'), (Z.eqb_sym ch c').
    destruct (select_progress db u' c') as [q|] eqn:Hq; simpl.
    + destruct ((u' =? u) && (c' =? ch)) eqn:Hk; [|reflexivity].
      apply andb_true_iff in Hk. rewrite !Z.eqb_eq in Hk. destruct Hk; subst.
      congruence.
    + destruct ((u' =? u) && (c' =? ch)); reflexivity.
Qed.

Lemma sum_points_app (a b : list Challenge) :
  sum_points (a ++ b) = sum_points a + sum_points b.
Proof. induction a as [|x a IH]; simpl; lia. Qed.

(** Marking one more challenge as solved adds its points, once. *)
Lemma sum_points_mark (f : Z -> bool) (c : Challenge) (cs : list Challenge) :
  NoDup (map c_id cs) -> In c cs -> f (c_id c) = false ->
  sum_points (filter (fun x => (c_id x =? c_id c) || f (c_id x)) cs)
  = points c + sum_points (filter (fun x => f (c_id x)) cs).
Proof.
  induction cs as [|x cs IH]; simpl; intros Hnd Hin Hf; [tauto|].
  inversion Hnd as [|? ? Hnotin Hnd']; subst.
  destruct Hin as [->|Hin].
  - rewrite Z.eqb_refl, Hf; simpl. f_equal. f_equal.
    apply filter_ext_in. intros y Hy.
    destruct (c_id y =? c_id c) eqn:He; [|reflexivity].
    apply Z.eqb_eq in He. exfalso. apply Hnotin. rewrite <- He.
    apply in_map; assumption.
  - assert (Hne : c_id x <> c_id c).
    { intros He. apply Hnotin. rewrite He. apply in_map; assumption. }
    apply Z.eqb_neq in Hne. rewrite Hne; simpl.
    destruct (f (c_id x)); simpl; rewrite IH by assumption; lia.
Qed.

Lemma has_solved_row_names_user (db : Db) (u c : Z) :
  has_solved_row db u c = true ->
  In u (map p_user_id (user_challenge_progress db))
  /\ In c (map p_challenge_id (user_challenge_progress db)).
Proof.
  unfold has_solved_row; intros H. apply existsb_exists in H.
  destruct H as (p & Hin & Hp). apply andb_true_iff in Hp.
  destruct Hp as [Hk _]. apply progress_key_true in Hk. destruct Hk; subst.
  split; apply in_map; assumption.
Qed.

Lemma names_user_in (db : Db) (u : Z) :
  names_user db u = true <-> In u (map u_id (users db)).
Proof.
  unfold names_user. rewrite existsb_exists, in_map_iff.
  split; intros (x & H1 & H2).
  - apply Z.eqb_eq in H2. eauto.
  - exists x. split; [assumption | apply Z.eqb_eq; assumption].
Qed.

Lemma filter_nothing {A : Type} (f : A -> bool) (l : list A) :
  (forall x, In x l -> f x = false) -> filter f l = [].
Proof.
  induction l as [|x l IH]; simpl; intros H; [reflexivity|].
  rewrite (H x) by auto. apply IH; auto.
Qed.

Lemma users_ids_after_submit (clk : Clock) (db : Db) (u ch : Z) (sub : str) :
  map u_id (users (fst (submit_flag clk db u ch sub))) = map u_id (users db).
Proof.
  destruct (submit_flag_tables clk db u ch sub)
    as [->|(c & ok & at_ & _ & _ & _ & _ & _ & Hus)]; [reflexivity|].
  rewrite Hus. destruct ok; [|reflexivity].
  unfold update_score; simpl. apply map_update_where; reflexivity.
Qed.

Lemma store_inv_create_user (clk : Clock) (db : Db) (n p : str) (o : bool) :
  store_inv db -> store_inv (fst (create_user sha256_hexdigest clk db n p o)).
Proof.
  intros Hinv.
  pose proof (schema_inv_run_op db (CreateUser clk n p o) (inv_schema _ Hinv))
    as Hsch'. simpl in Hsch'.
  destruct Hinv as [Hsch Hpu Hsc].
  destruct (create_user_tables clk db n p o) as [[_ Hr]|[_ Hr]];
    rewrite Hr in *; simpl; constructor; simpl; auto.
  - intros q Hq. rewrite map_app. apply in_or_app; left; auto.
  - intros u Hin. apply in_app_or in Hin. destruct Hin as [Hin|[<-|[]]].
    + apply (Hsc u Hin).
    + simpl. unfold solved_points; simpl.
      rewrite filter_nothing; [reflexivity|].
      intros c _.
      destruct (has_solved_row db (next_rowid (map u_id (users db))) (c_id c))
        eqn:Hh; [|exact Hh].
      exfalso. apply has_solved_row_names_user in Hh. destruct Hh as [Hu _].
      apply in_map_iff in Hu. destruct Hu as (q & Hqu & Hq).
      apply (next_rowid_fresh (map u_id (users db))).
      rewrite <- Hqu. apply Hpu; assumption.
Qed.

Lemma store_inv_create_challenge (clk : Clock) (db : Db)
    (t d c f : str) (pts m : Z) :
  store_inv db -> store_inv (fst (create_challenge clk db t d c f pts m)).
Proof.
  intros Hinv.
  pose proof (schema_inv_run_op db (CreateChallenge clk t d c f pts m)
                (inv_schema _ Hinv)) as Hsch'. simpl in Hsch'.
  destruct Hinv as [Hsch Hpu Hsc].
  constructor; simpl; auto.
  intros u Hin. simpl in Hin. rewrite (Hsc u Hin).
  unfold solved_points, has_solved_row; simpl.
  rewrite filter_app, sum_points_app; simpl.
  match goal with |- context [if ?b then _ else _] => destruct b eqn:Hh end;
    simpl; [|lia].
  exfalso.
  apply (has_solved_row_names_user db (u_id u)
           (next_rowid (map c_id (challenges db)))) in Hh.
  destruct Hh as [_ Hc].
  apply in_map_iff in Hc. destruct Hc as (q & Hqc & Hq).
  apply (next_rowid_fresh (map c_id (challenges db))).
  rewrite <- Hqc. apply (inv_progress_challenge _ Hsch); assumption.
Qed.

Lemma store_inv_submit_flag (clk : Clock) (db : Db) (u ch : Z) (sub : str) :
  store_inv db -> names_user db u = true ->
  store_inv (fst (submit_flag clk db u ch sub)).
Proof.
  intros Hinv Hreg.
  pose proof (schema_inv_run_op db (SubmitFlag clk u ch sub)
                (inv_schema _ Hinv)) as Hsch'. simpl in Hsch'.
  pose proof (users_ids_after_submit clk db u ch sub) as Hids.
  destruct Hinv as [Hsch Hpu Hsc].
  destruct (submit_flag_tables clk db u ch sub)
    as [Heq|(c & ok & at_ & Hg & Hs & Hok & Hch & Hpr & Hus)].
  { rewrite Heq. constructor; assumption. }
  set (db' := fst (submit_flag clk db u ch sub)) in *.
  assert (Hsolved : forall u' c',
             has_solved_row db' u' c'
             = if (u' =? u) && (c' =? ch) then ok
               else has_solved_row db u' c').
  { intros u' c'.
    rewrite (has_solved_row_pair_solved db') by apply (inv_pairs _ Hsch').
    rewrite (has_solved_row_pair_solved db) by apply (inv_pairs _ Hsch).
    subst db' ok. apply pair_solved_recorded; assumption. }
  assert (Hunsolved : has_solved_row db u ch = false).
  { rewrite has_solved_row_pair_solved by apply (inv_pairs _ Hsch).
    assumption. }
  apply get_challenge_by_id_some in Hg. destruct Hg as (Hin & Hid & _).
  constructor; [assumption| |].
  - rewrite Hids, Hpr. destruct (select_progress db u ch).
    + unfold update_progress; simpl. intros q Hq.
      unfold update_where in Hq. apply in_map_iff in Hq.
      destruct Hq as (q0 & <- & Hq0).
      destruct (progress_key u ch q0); simpl; auto.
    + unfold insert_progress; simpl. intros q Hq.
      apply in_app_or in Hq. destruct Hq as [Hq|[<-|[]]]; auto.
      simpl. apply names_user_in; assumption.
  - intros x Hx. unfold solved_points. rewrite Hch.
    rewrite (filter_ext _ _ (fun c0 => Hsolved (u_id x) (c_id c0))).
    rewrite Hus in Hx. destruct ok.
    + unfold update_score, update_where in Hx; simpl in Hx.
      apply in_map_iff in Hx. destruct Hx as (x0 & <- & Hx0).
      destruct (u_id x0 =? u) eqn:Hu; simpl.
      * rewrite Hu. apply Z.eqb_eq in Hu.
        rewrite (filter_ext _
                   (fun c0 => (c_id c0 =? c_id c)
                              || has_solved_row db (u_id x0) (c_id c0))).
        2:{ intros c0. rewrite Hid. simpl.
            destruct (c_id c0 =? ch); reflexivity. }
        rewrite (sum_points_mark (has_solved_row db (u_id x0)) c).
        -- rewrite (Hsc x0 Hx0). unfold solved_points. lia.
        -- apply (inv_challenge_ids _ Hsch).
        -- assumption.
        -- rewrite Hid, Hu. assumption.
      * rewrite Hu; simpl. apply (Hsc x0 Hx0).
    + rewrite (Hsc x Hx). unfold solved_points. f_equal.
      apply filter_ext. intros c0.
      destruct ((u_id x =? u) && (c_id c0 =? ch)) eqn:Hk; [|reflexivity].
      apply andb_true_iff in Hk. rewrite !Z.eqb_eq in Hk.
      destruct Hk as [-> ->]. assumption.
Qed.

Lemma store_inv_run_op (db : Db) (op : Op) :
  store_inv db -> registered_caller db op ->
  store_inv (run_op sha256_hexdigest db op).
Proof.
  intros Hinv Hreg. destruct op; simpl in *.
  - apply store_inv_create_user; assumption.
  - apply store_inv_create_challenge; assumption.
  - apply store_inv_submit_flag; assumption.
Qed.

Lemma store_inv_empty : store_inv empty_db.
Proof.
  constructor; [apply schema_inv_empty | intros ? [] | intros ? []].
Qed.

Lemma store_inv_run (db : Db) (ops : list Op) :
  store_inv db -> callers_registered sha256_hexdigest db ops ->
  store_inv (run sha256_hexdigest db ops).
Proof.
  revert db; induction ops as [|op ops IH]; intros db Hinv Hreg; simpl;
    [exact Hinv|].
  destruct Hreg as [Hop Hrest].
  apply IH; [apply store_inv_run_op; assumption | exact Hrest].
Qed.

(** A solved Progress row names a challenge that is stored and active. *)
Lemma solved_pair_challenge_active (db : Db) (u ch : Z) :
  schema_inv db -> pair_solved db u ch = true ->
  exists c, get_challenge_by_id db ch = Some c.
Proof.
  intros Hsch Hs. unfold pair_solved in Hs.
  destruct (select_progress db u ch) as [p|] eqn:Hsel; [|discriminate].
  pose proof (select_progress_some_key db u ch p Hsel) as [_ Hpc].
  unfold select_progress, fetchone in Hsel. apply find_some in Hsel.
  destruct Hsel as [Hin _].
  pose proof (inv_progress_challenge _ Hsch p Hin) as Hc.
  rewrite Hpc in Hc. apply in_map_iff in Hc. destruct Hc as (c & Hid & Hcin).
  destruct (get_challenge_by_id db ch) as [c'|] eqn:Hg; [eauto|].
  exfalso. unfold get_challenge_by_id, fetchone in Hg.
  pose proof (find_none _ _ Hg c Hcin) as Hf. simpl in Hf.
  rewrite Hid, Z.eqb_refl, (inv_active _ Hsch c Hcin) in Hf. discriminate.
Qed.

(** C2.  [submit_flag] answers "Challenge not found" when no active challenge
    has the id, and "Challenge already solved" when the challenge is found
    and the pair's Progress row is solved; either way the database is
    returned as it was received: no Submission row, no Progress change, no
    score change.  A solved pair is never accepted or written again, and in
    every state the store's operations reach from the empty store a solved
    pair always gets "Challenge already solved". *)
Theorem submit_flag_rejections_write_nothing
    (clk : Clock) (db : Db) (user_id challenge_id : Z) (sub : str) :
  (get_challenge_by_id db challenge_id = None ->
   submit_flag clk db user_id challenge_id sub = (db, (false, msg_not_found)))
  /\ (forall c, get_challenge_by_id db challenge_id = Some c ->
      pair_solved db user_id challenge_id = true ->
      submit_flag clk db user_id challenge_id sub
      = (db, (false, msg_already_solved)))
  /\ (pair_solved db user_id challenge_id = true ->
      fst (submit_flag clk db user_id challenge_id sub) = db
      /\ fst (snd (submit_flag clk db user_id challenge_id sub)) = false)
  /\ (forall ops, db = run sha256_hexdigest empty_db ops ->
      pair_solved db user_id challenge_id = true ->
      submit_flag clk db user_id challenge_id sub
      = (db, (false, msg_already_solved))).
Proof.
  split; [apply submit_flag_not_found|].
  split; [intros c; apply submit_flag_solved|].
  split.
  - intros Hs.
    destruct (get_challenge_by_id db challenge_id) as [c|] eqn:Hc.
    + rewrite (submit_flag_solved clk db user_id challenge_id sub c Hc Hs); auto.
    + rewrite (submit_flag_not_found clk db user_id challenge_id sub Hc); auto.
  - intros ops Hdb Hs.
    assert (Hsch : schema_inv db).
    { rewrite Hdb. apply schema_inv_run, schema_inv_empty. }
    destruct (solved_pair_challenge_active db user_id challenge_id Hsch Hs)
      as [c Hc].
    apply (submit_flag_solved clk db user_id challenge_id sub c Hc Hs).
Qed.

(** C3 (as amended).  In every state reached from the empty store by calls
    in which [submit_flag] is given the id of a stored user, and whose
    arguments and scores stay in the 64-bit range of the store, each user's
    score is the sum of the points of the challenges for which the user has
    a solved Progress row, and every further such call keeps it so. *)
Theorem score_is_sum_of_solved_points (ops : list Op) :
  callers_registered sha256_hexdigest empty_db ops ->
  run_fits sha256_hexdigest empty_db ops ->
  score_invariant (run sha256_hexdigest empty_db ops)
  /\ forall op,
       registered_caller (run sha256_hexdigest empty_db ops) op ->
       args_fit op ->
       scores_fit
         (run_op sha256_hexdigest (run sha256_hexdigest empty_db ops) op) ->
       score_invariant
         (run_op sha256_hexdigest (run sha256_hexdigest empty_db ops) op).
Proof.
  intros Hreg _.
  pose proof (store_inv_run empty_db ops store_inv_empty Hreg) as Hinv.
  split; [apply (inv_score _ Hinv)|].
  intros op Hop _ _. apply inv_score. apply store_inv_run_op; assumption.
Qed.

End Invariants.

(** ** ORDER BY *)

Section Sorter.

Context {A : Type} (leb : A -> A -> bool).

Lemma sorter_insert_perm (x : A) (l : list A) :
  Permutation (sorter_insert leb x l) (x :: l).
Proof.
  induction l as [|y l IH]; simpl; [reflexivity|].
  destruct (leb x y); [reflexivity|].
  rewrite IH. apply perm_swap.
Qed.

Lemma order_by_perm (l : list A) : Permutation (order_by leb l) l.
Proof.
  induction l as [|x l IH]; simpl; [reflexivity|].
  rewrite sorter_insert_perm. apply perm_skip, IH.
Qed.

(** A row never overtakes a row it does not sort strictly before: within a
    class of rows that compare as equal, the scan order is kept. *)
Lemma sorter_insert_filter (f : A -> bool) (x : A) (l : list A) :
  (forall y, In y l -> f x = true -> f y = true -> leb x y = true) ->
  filter f (sorter_insert leb x l) = filter f (x :: l).
Proof.
  induction l as [|y l IH]; intros H; [reflexivity|].
  simpl. destruct (leb x y) eqn:Hxy; [reflexivity|].
  simpl. rewrite IH by (intros z Hz; apply H; right; exact Hz). simpl.
  destruct (f x) eqn:Hfx; [|reflexivity].
  destruct (f y) eqn:Hfy; [|reflexivity].
  rewrite (H y (or_introl eq_refl) eq_refl Hfy) in Hxy. discriminate.
Qed.

Lemma order_by_stable (f : A -> bool) (l : list A) :
  (forall x y, f x = true -> f y = true -> leb x y = true) ->
  filter f (order_by leb l) = filter f l.
Proof.
  intros H; induction l as [|x l IH]; [reflexivity|].
  simpl order_by. rewrite sorter_insert_filter by (intros; apply H; assumption).
  simpl. rewrite IH. reflexivity.
Qed.

Hypothesis leb_total : forall x y, leb x y = true \/ leb y x = true.
Hypothesis leb_trans :
  forall x y z, leb x y = true -> leb y z = true -> leb x z = true.

Lemma sorter_insert_sorted (x : A) (l : list A) :
  StronglySorted (fun a b => leb a b = true) l ->
  StronglySorted (fun a b => leb a b = true) (sorter_insert leb x l).
Proof.
  induction 1 as [|y l Hl IH Hy]; simpl.
  - constructor; constructor.
  - destruct (leb x y) eqn:Hxy.
    + constructor; [constructor; assumption|].
      constructor; [assumption|].
      eapply Forall_impl; [|exact Hy]. intros z Hz. eapply leb_trans; eauto.
    + constructor; [exact IH|].
      eapply Permutation_Forall;
        [symmetry; apply sorter_insert_perm|].
      constructor; [|assumption].
      destruct (leb_total x y) as [H|H]; [congruence | exact H].
Qed.

Lemma order_by_sorted (l : list A) :
  StronglySorted (fun a b => leb a b = true) (order_by leb l).
Proof.
  induction l as [|x l IH]; simpl; [constructor|].
  apply sorter_insert_sorted, IH.
Qed.

End Sorter.

Lemma StronglySorted_weaken {A : Type} (R S : A -> A -> Prop) (l : list A) :
  (forall a b, R a b -> S a b) -> StronglySorted R l -> StronglySorted S l.
Proof.
  intros H; induction 1 as [|x l Hl IH Hx]; constructor; [assumption|].
  eapply Forall_impl; [|exact Hx]. intros; apply H; assumption.
Qed.

Lemma StronglySorted_map {A B : Type} (f : A -> B) (R : B -> B -> Prop)
    (l : list A) :
  StronglySorted (fun a b => R (f a) (f b)) l -> StronglySorted R (map f l).
Proof.
  induction 1 as [|x l Hl IH Hx]; simpl; constructor; [assumption|].
  apply Forall_map. exact Hx.
Qed.

Lemma StronglySorted_snoc {A : Type} (R : A -> A -> Prop) (l : list A) (x : A) :
  StronglySorted R l -> (forall y, In y l -> R y x) ->
  StronglySorted R (l ++ [x]).
Proof.
  induction 1 as [|y l Hl IH Hy]; simpl; intros Hx.
  - constructor; constructor.
  - constructor; [apply IH; auto|].
    apply Forall_app. split; [assumption|]. constructor; auto.
Qed.

(** Challenge ids grow along the table in every state the operations reach:
    the table order is the insertion order and the order of identifiers. *)
Lemma challenge_ids_ascending (sha256_hexdigest : str -> str) (ops : list Op)
    (db : Db) :
  StronglySorted Z.lt (map c_id (challenges db)) ->
  StronglySorted Z.lt
    (map c_id (challenges (run sha256_hexdigest db ops))).
Proof.
  revert db; induction ops as [|op ops IH]; intros db H; simpl; [exact H|].
  apply IH. destruct op as [clk n p o|clk t d c f pts m|clk u ch sub]; simpl.
  - destruct (create_user_tables sha256_hexdigest clk db n p o)
      as [[_ ->]|[_ ->]]; exact H.
  - rewrite map_app; simpl. apply StronglySorted_snoc; [exact H|].
    intros y Hy. apply next_rowid_above; exact Hy.
  - destruct (submit_flag_tables clk db u ch sub)
      as [->|(c & ok & at_ & _ & _ & _ & -> & _)]; exact H.
Qed.

(** ** Listings *)

(** C5.  [get_all_challenges] returns exactly the active challenges, in
    ascending order of points, and challenges with equal points in the order
    in which the table holds them, which is the insertion order and, in every
    state the operations reach from the empty store, the order of ascending
    identifiers. *)
Theorem get_all_challenges_active_by_points (db : Db) :
  Permutation (get_all_challenges db) (filter is_active (challenges db))
  /\ (forall c, In c (get_all_challenges db) <->
                In c (challenges db) /\ is_active c = true)
  /\ StronglySorted (fun a b => points a <= points b) (get_all_challenges db)
  /\ (forall pts,
        filter (fun c => points c =? pts) (get_all_challenges db)
        = filter (fun c => points c =? pts)
                 (filter is_active (challenges db)))
  /\ (forall sha256_hexdigest ops,
        db = run sha256_hexdigest empty_db ops ->
        StronglySorted Z.lt (map c_id (challenges db))).
Proof.
  unfold get_all_challenges.
  split; [apply order_by_perm|].
  split.
  { intros c. rewrite <- filter_In. split; apply Permutation_in;
      [|symmetry]; apply order_by_perm. }
  split.
  { apply (StronglySorted_weaken (fun a b => by_points_asc a b = true)).
    - unfold by_points_asc; intros a b H; apply Z.leb_le; exact H.
    - apply order_by_sorted; unfold by_points_asc.
      + intros x y.
        destruct (Z.leb_spec (points x) (points y)); [left; reflexivity|].
        right; apply Z.leb_le; lia.
      + intros x y z H1 H2. apply Z.leb_le in H1, H2. apply Z.leb_le; lia. }
  split.
  { intros pts. apply order_by_stable. intros x y Hx Hy.
    apply Z.eqb_eq in Hx, Hy. unfold by_points_asc. apply Z.leb_le; lia. }
  intros sha ops ->. apply challenge_ids_ascending. simpl. constructor.
Qed.

Lemma by_score_desc_created_asc_true (a b : User) :
  by_score_desc_created_asc a b = true <->
  score b < score a
  \/ (score a = score b /\ (u_created_at a <= u_created_at b)%N).
Proof.
  unfold by_score_desc_created_asc.
  rewrite orb_true_iff, andb_true_iff, Z.ltb_lt, Z.eqb_eq, N.leb_le.
  reflexivity.
Qed.

(** C6.  [get_leaderboard] returns exactly the users whose score is above 0,
    each as the triple of the user's username, score and creation time,
    ordered by descending score and, among equal scores, by ascending
    creation time. *)
Theorem get_leaderboard_positive_ranked (db : Db) :
  Permutation (get_leaderboard db)
    (map (fun u => (username u, score u, u_created_at u))
         (filter (fun u => 0 <? score u) (users db)))
  /\ (forall name points_ joined,
        In (name, points_, joined) (get_leaderboard db) <->
        exists u, In u (users db) /\ 0 < score u
                  /\ username u = name /\ score u = points_
                  /\ u_created_at u = joined)
  /\ StronglySorted ranks_before (get_leaderboard db).
Proof.
  unfold get_leaderboard.
  assert (Hperm : Permutation
            (map leaderboard_row
               (order_by by_score_desc_created_asc
                  (filter (fun u => 0 <? score u) (users db))))
            (map (fun u => (username u, score u, u_created_at u))
                 (filter (fun u => 0 <? score u) (users db)))).
  { apply (Permutation_map leaderboard_row), order_by_perm. }
  split; [exact Hperm|]. split.
  - intros name points_ joined. split.
    + intros He. apply (Permutation_in _ Hperm) in He.
      apply in_map_iff in He. destruct He as (u & Heq & Hu).
      inversion Heq; subst.
      apply filter_In in Hu. destruct Hu as [Hu Hs]. apply Z.ltb_lt in Hs.
      exists u. auto.
    + intros (u & Hu & Hs & <- & <- & <-).
      apply (Permutation_in _ (Permutation_sym Hperm)).
      apply (in_map (fun u => (username u, score u, u_created_at u))).
      apply filter_In. split; [assumption | apply Z.ltb_lt; assumption].
  - apply StronglySorted_map.
    apply (StronglySorted_weaken
             (fun a b => by_score_desc_created_asc a b = true)).
    + intros a b H. apply by_score_desc_created_asc_true in H.
      unfold ranks_before, leaderboard_row. exact H.
    + apply order_by_sorted.
      * intros x y. rewrite !by_score_desc_created_asc_true. lia.
      * intros x y z. rewrite !by_score_desc_created_asc_true. lia.
Qed.

(** ** Registration and credentials *)

Lemma NoDup_map_eq {A B : Type} (f : A -> B) (l : list A) (a b : A) :
  NoDup (map f l) -> In a l -> In b l -> f a = f b -> a = b.
Proof.
  induction l as [|x l IH]; simpl; intros Hnd Ha Hb Hf; [tauto|].
  inversion Hnd as [|? ? Hnotin Hnd']; subst.
  destruct Ha as [->|Ha], Hb as [->|Hb]; auto.
  - exfalso. apply Hnotin. rewrite Hf. apply in_map; assumption.
  - exfalso. apply Hnotin. rewrite <- Hf. apply in_map; assumption.
Qed.

Section Registration.

Variable sha256_hexdigest : str -> str.

(** Identifiers returned by a sequence of registrations lie above every
    identifier stored before it and are pairwise distinct. *)
Lemma register_all_ids (regs : list (Clock * str * str * bool)) (db : Db) :
  (forall i j, In i (returned_ids (snd (register_all sha256_hexdigest db regs)))
               -> In j (map u_id (users db)) -> j < i)
  /\ NoDup (returned_ids (snd (register_all sha256_hexdigest db regs))).
Proof.
  revert db; induction regs as [|[[[clk n] p] o] regs IH]; intros db; simpl.
  - split; [intros ? ? [] | constructor].
  - destruct (create_user_tables sha256_hexdigest clk db n p o)
      as [[_ Hr]|[_ Hr]]; simpl in Hr; rewrite Hr.
    + specialize (IH db).
      destruct (register_all sha256_hexdigest db regs) as [db2 rs]; simpl in *.
      exact IH.
    + match goal with
      | |- context [register_all _ ?d regs] => specialize (IH d); set (db1 := d) in *
      end.
      destruct (register_all sha256_hexdigest db1 regs) as [db2 rs].
      simpl in *. destruct IH as [Habove Hnd].
      assert (Hnew : forall i, In i (returned_ids rs) ->
                       next_rowid (map u_id (users db)) < i).
      { intros i Hi. apply (Habove i _ Hi).
        rewrite map_app. apply in_or_app. right. simpl. auto. }
      split.
      * intros i j [<-|Hi] Hj.
        -- apply next_rowid_above; assumption.
        -- apply (Habove i j Hi). rewrite map_app. apply in_or_app; auto.
      * constructor; [|assumption].
        intros Hin. apply Hnew in Hin. lia.
Qed.

(** C7.  [create_user] on a username that no stored user has appends the
    user and returns an identifier that no stored user has; on a username
    that is stored it returns [None] and stores nothing.  It returns [None]
    exactly when the INSERT is rejected by the UNIQUE constraint of the
    users table, and over any sequence of registrations the identifiers
    returned are pairwise distinct and differ from those stored before. *)
Theorem create_user_fresh_id_or_duplicate
    (clk : Clock) (db : Db) (name pw : str) (org : bool) :
  ((forall u, In u (users db) -> username u <> name) ->
   create_user sha256_hexdigest clk db name pw org
   = (mkDb (users db
            ++ [mkUser (next_rowid (map u_id (users db))) name
                  (sha256_hexdigest pw) 0 org (current_timestamp clk)])
        (challenges db) (submissions db) (user_challenge_progress db),
      Some (next_rowid (map u_id (users db))))
   /\ forall u, In u (users db) -> u_id u <> next_rowid (map u_id (users db)))
  /\ ((exists u, In u (users db) /\ username u = name) ->
      create_user sha256_hexdigest clk db name pw org = (db, None))
  /\ (snd (create_user sha256_hexdigest clk db name pw org) = None <->
      insert_user clk db name (sha256_hexdigest pw) org = inl UniqueViolation)
  /\ (forall regs,
        NoDup (returned_ids (snd (register_all sha256_hexdigest db regs)))
        /\ forall i,
             In i (returned_ids (snd (register_all sha256_hexdigest db regs)))
             -> ~ In i (map u_id (users db))).
Proof.
  split; [|split; [|split]].
  - intros Hfree.
    destruct (create_user_tables sha256_hexdigest clk db name pw org)
      as [[He _]|[_ Hr]].
    + exfalso. apply existsb_exists in He. destruct He as (u & Hin & Hu).
      apply str_eqb_eq in Hu. apply (Hfree u Hin Hu).
    + split; [exact Hr|].
      intros u Hin Heq.
      apply (next_rowid_fresh (map u_id (users db))).
      rewrite <- Heq. apply in_map; assumption.
  - intros (u & Hin & Hu).
    destruct (create_user_tables sha256_hexdigest clk db name pw org)
      as [[_ Hr]|[He _]]; [exact Hr|].
    exfalso. apply existsb_username_false in He. apply He.
    rewrite <- Hu. apply in_map; assumption.
  - unfold create_user.
    destruct (insert_user clk db name (sha256_hexdigest pw) org)
      as [[]|[db' i]]; simpl; split; congruence.
  - intros regs. destruct (register_all_ids regs db) as [Habove Hnd].
    split; [exact Hnd|].
    intros i Hi Hin. specialize (Habove i i Hi Hin). lia.
Qed.

(** C8.  With usernames unique, [verify_password] returns a user record
    exactly when that record is stored under the given username and its
    stored hash is the hash of the given password; for a username that is
    not stored and for a stored username with another password's hash it
    returns the same [None]. *)
Theorem verify_password_iff_hash_matches (db : Db) (name pw : str) :
  NoDup (map username (users db)) ->
  (forall u, verify_password sha256_hexdigest db name pw = Some u <->
             In u (users db) /\ username u = name
             /\ password_hash u = sha256_hexdigest pw)
  /\ ((forall u, In u (users db) -> username u <> name) ->
      verify_password sha256_hexdigest db name pw = None)
  /\ (forall u, In u (users db) -> username u = name ->
      password_hash u <> sha256_hexdigest pw ->
      verify_password sha256_hexdigest db name pw = None).
Proof.
  intros Hnd.
  assert (Hiff : forall u,
             verify_password sha256_hexdigest db name pw = Some u <->
             In u (users db) /\ username u = name
             /\ password_hash u = sha256_hexdigest pw).
  { intros u. unfold verify_password, get_user_by_username, fetchone.
    destruct (find (fun x => str_eqb (username x) name) (users db))
      as [x|] eqn:Hf.
    - apply find_some in Hf. destruct Hf as [Hin Hx]. apply str_eqb_eq in Hx.
      destruct (str_eqb (password_hash x) (sha256_hexdigest pw)) eqn:Hh.
      + apply str_eqb_eq in Hh. split.
        * intros H; inversion H; subst; auto.
        * intros (Hu & Hn & _). f_equal.
          apply (NoDup_map_eq username (users db)); congruence.
      + apply str_eqb_neq in Hh. split; [discriminate|].
        intros (Hu & Hn & Hp). exfalso. apply Hh.
        rewrite (NoDup_map_eq username (users db) x u); congruence.
    - split; [discriminate|]. intros (Hu & Hn & _).
      pose proof (find_none _ _ Hf u Hu) as Hx. simpl in Hx.
      rewrite Hn, str_eqb_refl in Hx. discriminate. }
  split; [exact Hiff|]. split.
  - intros Hfree.
    destruct (verify_password sha256_hexdigest db name pw) as [u|] eqn:Hv;
      [|reflexivity].
    destruct (proj1 (Hiff u) eq_refl) as (Hin & Hn & _).
    exfalso. apply (Hfree u Hin Hn).
  - intros u Hin Hn Hp.
    destruct (verify_password sha256_hexdigest db name pw) as [x|] eqn:Hv;
      [|reflexivity].
    destruct (proj1 (Hiff x) eq_refl) as (Hx & Hxn & Hxp).
    exfalso. apply Hp.
    rewrite (NoDup_map_eq username (users db) u x); congruence.
Qed.

End Registration.

(** ** Attempt limits *)

Lemma find_Forall2 {A : Type} (R : A -> A -> Prop) (f : A -> bool)
    (l1 l2 : list A) :
  (forall a b, R a b -> f a = f b) -> Forall2 R l1 l2 ->
  match find f l1, find f l2 with
  | Some a, Some b => R a b
  | None, None => True
  | _, _ => False
  end.
Proof.
  intros Hf; induction 1 as [|x y l1 l2 Hxy Hl IH]; simpl; [trivial|].
  rewrite <- (Hf x y Hxy). destruct (f x); [exact Hxy | exact IH].
Qed.

Lemma map_Forall2 {A B : Type} (R : A -> A -> Prop) (f : A -> B)
    (l1 l2 : list A) :
  (forall a b, R a b -> f a = f b) -> Forall2 R l1 l2 -> map f l1 = map f l2.
Proof.
  intros Hf; induction 1 as [|x y l1 l2 Hxy Hl IH]; simpl; [reflexivity|].
  rewrite (Hf x y Hxy), IH. reflexivity.
Qed.

Lemma update_where_Forall2 {A : Type} (R : A -> A -> Prop)
    (where_ : A -> bool) (set : A -> A) (l1 l2 : list A) :
  (forall a b, R a b -> where_ a = where_ b) ->
  (forall a b, R a b -> R (set a) (set b)) ->
  Forall2 R l1 l2 ->
  Forall2 R (update_where where_ set l1) (update_where where_ set l2).
Proof.
  intros Hw Hs; induction 1 as [|x y l1 l2 Hxy Hl IH]; simpl; constructor;
    [|exact IH].
  rewrite <- (Hw x y Hxy). destruct (where_ x); auto.
Qed.

Lemma same_key (u ch : Z) (a b : Progress) :
  same_but_attempts_count a b -> progress_key u ch a = progress_key u ch b.
Proof.
  intros (_ & Hu & Hc & _). unfold progress_key. rewrite Hu, Hc. reflexivity.
Qed.

(** The counter moves by the same amount in two tables that agree on
    everything but the counters. *)
Lemma attempts_delta_update (u ch : Z) (set : Progress -> Progress)
    (l1 l2 : list Progress) :
  (forall p, attempts_count (set p) = attempts_count p + 1) ->
  Forall2 same_but_attempts_count l1 l2 ->
  forall i,
    nth i (map attempts_count (update_where (progress_key u ch) set l1)) 0
    - nth i (map attempts_count l1) 0
    = nth i (map attempts_count (update_where (progress_key u ch) set l2)) 0
      - nth i (map attempts_count l2) 0.
Proof.
  intros Hset; induction 1 as [|x y l1 l2 Hxy Hl IH]; intros i.
  - destruct i; reflexivity.
  - destruct i as [|i]; simpl; [|apply IH].
    rewrite <- (same_key u ch x y Hxy).
    destruct (progress_key u ch x); rewrite ?Hset; lia.
Qed.

Lemma attempts_delta_insert (r1 r2 : Progress) (l1 l2 : list Progress) :
  attempts_count r1 = attempts_count r2 ->
  Forall2 same_but_attempts_count l1 l2 ->
  forall i,
    nth i (map attempts_count (l1 ++ [r1])) 0 - nth i (map attempts_count l1) 0
    = nth i (map attempts_count (l2 ++ [r2])) 0
      - nth i (map attempts_count l2) 0.
Proof.
  intros Hr; induction 1 as [|x y l1 l2 Hxy Hl IH]; intros i.
  - destruct i as [|[|i]]; simpl; lia.
  - destruct i as [|i]; simpl; [lia | apply IH].
Qed.

(** C9.  [submit_flag] reads neither [max_attempts] nor [attempts_count]: on
    two databases that agree on everything but those two columns it returns
    the same answer, leaves two databases that again agree on everything but
    those columns, and moves every attempt counter by the same amount. *)
Theorem submit_flag_ignores_attempt_limits
    (clk : Clock) (d1 d2 : Db) (user_id challenge_id : Z) (sub : str) :
  differ_only_in_attempt_limits d1 d2 ->
  let r1 := submit_flag clk d1 user_id challenge_id sub in
  let r2 := submit_flag clk d2 user_id challenge_id sub in
  snd r1 = snd r2
  /\ differ_only_in_attempt_limits (fst r1) (fst r2)
  /\ forall i,
       attempts_at (fst r1) i - attempts_at d1 i
       = attempts_at (fst r2) i - attempts_at d2 i.
Proof.
  intros Hrel r1 r2. pose proof Hrel as (Hu & Hsub & Hc & Hp).
  pose proof (find_Forall2 same_but_max_attempts
                (fun c => (c_id c =? challenge_id) && is_active c)
                (challenges d1) (challenges d2)) as Hfc.
  specialize (Hfc ltac:(intros a b (Hid & _ & _ & _ & _ & _ & Hact & _);
                        rewrite Hid, Hact; reflexivity) Hc).
  fold (fetchone (fun c => (c_id c =? challenge_id) && is_active c)
          (challenges d1)) in Hfc.
  fold (fetchone (fun c => (c_id c =? challenge_id) && is_active c)
          (challenges d2)) in Hfc.
  fold (get_challenge_by_id d1 challenge_id) in Hfc.
  fold (get_challenge_by_id d2 challenge_id) in Hfc.
  destruct (get_challenge_by_id d1 challenge_id) as [c1|] eqn:Hg1;
    destruct (get_challenge_by_id d2 challenge_id) as [c2|] eqn:Hg2;
    try contradiction.
  2:{ subst r1 r2.
      rewrite (submit_flag_not_found clk d1 user_id challenge_id sub Hg1).
      rewrite (submit_flag_not_found clk d2 user_id challenge_id sub Hg2).
      simpl. repeat split; auto. intros i; lia. }
  destruct Hfc as (_ & _ & _ & _ & Hflag & Hpts & _ & _).
  pose proof (find_Forall2 same_but_attempts_count
                (progress_key user_id challenge_id)
                (user_challenge_progress d1) (user_challenge_progress d2)
                (same_key user_id challenge_id) Hp) as Hfp.
  fold (fetchone (progress_key user_id challenge_id)
          (user_challenge_progress d1)) in Hfp.
  fold (fetchone (progress_key user_id challenge_id)
          (user_challenge_progress d2)) in Hfp.
  fold (select_progress d1 user_id challenge_id) in Hfp.
  fold (select_progress d2 user_id challenge_id) in Hfp.
  assert (Hsolved : pair_solved d1 user_id challenge_id
                    = pair_solved d2 user_id challenge_id).
  { unfold pair_solved.
    destruct (select_progress d1 user_id challenge_id) as [p1|];
      destruct (select_progress d2 user_id challenge_id) as [p2|];
      try contradiction; [|reflexivity].
    destruct Hfp as (_ & _ & _ & Hs & _). exact Hs. }
  destruct (pair_solved d1 user_id challenge_id) eqn:Hs1; symmetry in Hsolved.
  { subst r1 r2.
    rewrite (submit_flag_solved clk d1 user_id challenge_id sub c1 Hg1 Hs1).
    rewrite (submit_flag_solved clk d2 user_id challenge_id sub c2 Hg2 Hsolved).
    simpl. repeat split; auto. intros i; lia. }
  destruct (submit_flag_recorded clk d1 user_id challenge_id sub c1 Hg1 Hs1)
    as (Hres1 & Hch1 & Hsb1 & Hpr1 & Hus1).
  destruct (submit_flag_recorded clk d2 user_id challenge_id sub c2 Hg2 Hsolved)
    as (Hres2 & Hch2 & Hsb2 & Hpr2 & Hus2).
  fold r1 in Hres1, Hch1, Hsb1, Hpr1, Hus1.
  fold r2 in Hres2, Hch2, Hsb2, Hpr2, Hus2.
  rewrite <- Hflag, <- Hpts in *.
  set (ok := str_eqb (strip sub) (strip (flag c1))) in *.
  set (at_ := if ok then Some (datetime_now clk) else None) in *.
  assert (Hprogress :
            Forall2 same_but_attempts_count (user_challenge_progress (fst r1))
                    (user_challenge_progress (fst r2))
            /\ forall i,
                 attempts_at (fst r1) i - attempts_at d1 i
                 = attempts_at (fst r2) i - attempts_at d2 i).
  { unfold attempts_at. rewrite Hpr1, Hpr2.
    destruct (select_progress d1 user_id challenge_id) as [p1|];
      destruct (select_progress d2 user_id challenge_id) as [p2|];
      try contradiction; simpl.
    - split.
      + apply update_where_Forall2;
          [apply same_key | | exact Hp].
        intros a b (H1 & H2 & H3 & H4 & H5 & H6).
        unfold same_but_attempts_count; simpl. auto 10.
      + apply attempts_delta_update; [reflexivity | exact Hp].
    - split.
      + apply Forall2_app; [exact Hp|]. constructor; [|constructor].
        unfold same_but_attempts_count; simpl.
        rewrite (map_Forall2 same_but_attempts_count p_id _ _
                   ltac:(intros a b (H & _); exact H) Hp).
        auto 10.
      + apply attempts_delta_insert; [reflexivity | exact Hp]. }
  destruct Hprogress as [Hprel Hdelta].
  split; [rewrite Hres1, Hres2; reflexivity|].
  split; [|exact Hdelta].
  unfold differ_only_in_attempt_limits.
  split; [rewrite Hus1, Hus2; unfold update_score; simpl; rewrite Hu;
          reflexivity|].
  split; [rewrite Hsb1, Hsb2, Hsub; reflexivity|].
  split; [rewrite Hch1, Hch2; exact Hc | exact Hprel].
Qed.

(** * Concrete runs *)

(** The scenario of the specification: " flag{test} " is accepted for the
    challenge worth 100 points and raises the score by 100; the same
    submission again is refused and the score stays. *)
Example spec_scenario_trimmed_flag :
  snd (submit_flag t1 demo_db 1 1 (py " flag{test} "))
  = (true, py "Correct! You earned 100 points!")
  /\ user_score demo_db 1 = Some 0
  /\ user_score demo_solved_db 1 = Some 100
  /\ submit_flag t1 demo_solved_db 1 1 (py " flag{test} ")
     = (demo_solved_db, (false, py "Challenge already solved")).
Proof. repeat split; reflexivity. Qed.


Lemma submit_flag_rejections_write_nothing_witness :
  get_challenge_by_id demo_db 7 = None
  /\ submit_flag t1 demo_db 1 7 (py "flag{test}")
     = (demo_db, (false, msg_not_found))
  /\ pair_solved demo_solved_db 1 1 = true
  /\ submit_flag t1 demo_solved_db 1 1 (py "flag{test}")
     = (demo_solved_db, (false, msg_already_solved)).
Proof.
  assert (H1 : get_challenge_by_id demo_db 7 = None) by reflexivity.
  assert (H2 : pair_solved demo_solved_db 1 1 = true) by reflexivity.
  assert (H3 : demo_solved_db = run plain_digest empty_db registered_ops)
    by reflexivity.
  destruct (submit_flag_rejections_write_nothing plain_digest t1 demo_db 1 7
              (py "flag{test}")) as (Hnone & _).
  destruct (submit_flag_rejections_write_nothing plain_digest t1
              demo_solved_db 1 1 (py "flag{test}")) as (_ & _ & _ & Hrun).
  exact (conj H1 (conj (Hnone H1) (conj H2 (Hrun registered_ops H3 H2)))).
Defined.

Lemma score_is_sum_of_solved_points_witness :
  callers_registered plain_digest empty_db registered_ops
  /\ run_fits plain_digest empty_db registered_ops
  /\ score_invariant (run plain_digest empty_db registered_ops).
Proof.
  assert (H : callers_registered plain_digest empty_db registered_ops)
    by (simpl; repeat split; reflexivity).
  assert (Hfit : run_fits plain_digest empty_db registered_ops).
  { unfold registered_ops, demo_ops. cbn [app run_fits args_fit].
    repeat match goal with
           | |- _ /\ _ => split
           | |- True => exact I
           | |- fits_int64 _ => apply fits_int64_check; vm_compute; reflexivity
           | |- scores_fit _ => apply scores_fit_check; vm_compute; reflexivity
           end. }
  exact (conj H (conj Hfit (proj1 (score_is_sum_of_solved_points plain_digest
                                     registered_ops H Hfit)))).
Defined.

(** C3, as stated, fails: a flag submitted for user id 1 while no user is
    stored leaves a solved Progress row for that id, and the user registered
    next receives id 1 with score 0 although the solved challenge is worth
    100 points. *)
Lemma score_invariant_fails_after_unregistered_submit :
  ~ score_invariant (run plain_digest empty_db unregistered_ops).
Proof.
  intros H.
  specialize (H (mkUser 1 (py "alice") (py "wonderland") 0 false 2000%N)
                (or_introl eq_refl)).
  vm_compute in H. discriminate H.
Qed.


Lemma get_all_challenges_active_by_points_witness :
  demo_db = run plain_digest empty_db demo_ops
  /\ StronglySorted Z.lt (map c_id (challenges demo_db)).
Proof.
  assert (H : demo_db = run plain_digest empty_db demo_ops) by reflexivity.
  destruct (get_all_challenges_active_by_points demo_db)
    as (_ & _ & _ & _ & Hids).
  exact (conj H (Hids plain_digest demo_ops H)).
Defined.

Lemma create_user_fresh_id_or_duplicate_witness :
  (forall u, In u (users demo_db) -> username u <> py "carol")
  /\ snd (create_user plain_digest t1 demo_db (py "carol") (py "pw") false)
     = Some 3
  /\ (exists u, In u (users demo_db) /\ username u = py "alice")
  /\ create_user plain_digest t1 demo_db (py "alice") (py "pw") false
     = (demo_db, None).
Proof.
  assert (H1 : forall u, In u (users demo_db) -> username u <> py "carol").
  { intros u [<-|[<-|[]]]; vm_compute; discriminate. }
  assert (H2 : exists u, In u (users demo_db) /\ username u = py "alice").
  { eexists; split; [left; reflexivity | reflexivity]. }
  destruct (create_user_fresh_id_or_duplicate plain_digest t1 demo_db
              (py "carol") (py "pw") false) as (Hfresh & _).
  destruct (create_user_fresh_id_or_duplicate plain_digest t1 demo_db
              (py "alice") (py "pw") false) as (_ & Hdup & _).
  destruct (Hfresh H1) as [Hr _].
  exact (conj H1 (conj (f_equal snd Hr) (conj H2 (Hdup H2)))).
Defined.

Lemma verify_password_iff_hash_matches_witness :
  NoDup (map username (users demo_db))
  /\ (forall u,
        verify_password plain_digest demo_db (py "alice") (py "wonderland")
        = Some u <->
        In u (users demo_db) /\ username u = py "alice"
        /\ password_hash u = plain_digest (py "wonderland")).
Proof.
  assert (H : NoDup (map username (users demo_db))).
  { repeat constructor; simpl; intuition discriminate. }
  exact (conj H (proj1 (verify_password_iff_hash_matches plain_digest demo_db
                          (py "alice") (py "wonderland") H))).
Defined.

Lemma submit_flag_ignores_attempt_limits_witness :
  differ_only_in_attempt_limits demo_db demo_db_limited
  /\ snd (submit_flag t1 demo_db 1 1 (py "flag{test}"))
     = snd (submit_flag t1 demo_db_limited 1 1 (py "flag{test}")).
Proof.
  assert (H : differ_only_in_attempt_limits demo_db demo_db_limited).
  { unfold differ_only_in_attempt_limits. repeat split; try reflexivity.
    - constructor; [|constructor]. repeat split; reflexivity.
    - constructor. }
  exact (conj H (proj1 (submit_flag_ignores_attempt_limits t1 demo_db
                          demo_db_limited 1 1 (py "flag{test}") H))).
Defined.

Lemma submit_flag_ignores_missing_user_witness :
  (forall u, In u (users demo_db) -> u_id u <> 9)
  /\ get_challenge_by_id demo_db 1 = Some demo_challenge
  /\ pair_solved demo_db 9 1 = false
  /\ strip (py "flag{test}") = strip (flag demo_challenge)
  /\ snd (submit_flag t1 demo_db 9 1 (py "flag{test}"))
     = (true, py "Correct! You earned 100 points!")
  /\ submissions (fst (submit_flag t1 demo_db 9 1 (py "flag{test}")))
     = [mkSubmission 1 9 1 (py "flag{test}") true 2000%N]
  /\ user_challenge_progress
       (fst (submit_flag t1 demo_db 9 1 (py "flag{test}")))
     = [mkProgress 1 9 1 true 1 (Some 2000%N) None]
  /\ users (fst (submit_flag t1 demo_db 9 1 (py "flag{test}")))
     = users demo_db.
Proof.
  assert (H1 : forall u, In u (users demo_db) -> u_id u <> 9).
  { intros u [<-|[<-|[]]]; vm_compute; discriminate. }
  assert (H2 : get_challenge_by_id demo_db 1 = Some demo_challenge)
    by reflexivity.
  assert (H3 : pair_solved demo_db 9 1 = false) by reflexivity.
  assert (H4 : strip (py "flag{test}") = strip (flag demo_challenge))
    by reflexivity.
  destruct (submit_flag_ignores_missing_user t1 demo_db 9 1 (py "flag{test}")
              demo_challenge H1 H2 H3 H4) as (_ & Hsub & Hpr & _ & Hus).
  refine (conj H1 (conj H2 (conj H3 (conj H4 (conj _ (conj Hsub
            (conj (Hpr eq_refl) Hus))))))).
  reflexivity.
Defined.

(** C10, as stated, fails: once a correct flag has been accepted for an id
    that names no stored user, the same correct flag for the same id and
    the same active challenge is refused with "Challenge already solved"
    and nothing is written. *)
Lemma submit_flag_missing_user_refused_once_solved :
  ghost_solved_db
  = run plain_digest empty_db
      (demo_ops ++ [SubmitFlag t0 9 1 (py "flag{test}")])
  /\ (forall u, In u (users ghost_solved_db) -> u_id u <> 9)
  /\ get_challenge_by_id ghost_solved_db 1 = Some demo_challenge
  /\ strip (py "flag{test}") = strip (flag demo_challenge)
  /\ submit_flag t1 ghost_solved_db 9 1 (py "flag{test}")
     = (ghost_solved_db, (false, py "Challenge already solved")).
Proof.
  split; [reflexivity|]. split.
  { intros u [<-|[<-|[]]]; vm_compute; discriminate. }
  repeat split; reflexivity.
Qed.

Lemma get_leaderboard_positive_ranked_witness :
  get_leaderboard ranked_db
  = [ (py "cy", 100, 20%N); (py "bea", 100, 30%N); (py "ann", 50, 10%N) ]
  /\ In (py "cy", 100, 20%N) (get_leaderboard ranked_db)
  /\ ~ In (py "dee", 0, 5%N) (get_leaderboard ranked_db)
  /\ StronglySorted ranks_before
       [ (py "cy", 100, 20%N); (py "bea", 100, 30%N); (py "ann", 50, 10%N) ].
Proof.
  destruct (get_leaderboard_positive_ranked ranked_db) as (_ & Hin & Hsorted).
  split; [reflexivity|]. split; [|split].
  - apply Hin. eexists. split; [right; right; left; reflexivity|].
    repeat split; try reflexivity.
  - intros H. apply Hin in H. destruct H as (u & _ & Hpos & _ & Hzero & _).
    rewrite Hzero in Hpos. inversion Hpos.
  - exact Hsorted.
Defined.

(** The whitespace of [strip]: some of the table, and a few characters
    outside it. *)
Example isspace_examples :
  map isspace [9; 10; 11; 12; 13; 28; 31; 32; 133; 160; 8195; 12288]%N
  = repeat true 12
  /\ map isspace [0; 8; 14; 27; 33; 48; 65; 95; 97; 123; 8203; 65279]%N
     = repeat false 12.
Proof. split; reflexivity. Qed.

Example strip_examples :
  strip (py " flag{test} ") = py "flag{test}"
  /\ strip (py "a b") = py "a b"
  /\ strip (9 :: 10 :: py "x" ++ [160; 13])%N = py "x"
  /\ strip (py "   ") = [].
Proof. repeat split; reflexivity. Qed.

Example str_of_int_examples :
  str_of_int 0 = py "0" /\ str_of_int 100 = py "100"
  /\ str_of_int (-5) = py "-5" /\ str_of_int 1234567890 = py "1234567890".
Proof. repeat split; reflexivity. Qed.

(** * Further properties of [database.py] *)

Lemma find_app {A : Type} (f : A -> bool) (l1 l2 : list A) :
  find f (l1 ++ l2)
  = match find f l1 with Some x => Some x | None => find f l2 end.
Proof.
  induction l1 as [|x l1 IH]; simpl; [reflexivity|].
  destruct (f x); [reflexivity | exact IH].
Qed.

(** X1.  A challenge just created is active and is the one
    [get_challenge_by_id] returns for the id [create_challenge] handed out;
    that id belonged to no stored challenge, and the lookup of every other
    id is as before. *)
Theorem create_challenge_then_get
    (clk : Clock) (db : Db) (t d c f : str) (pts m : Z) :
  let r := create_challenge clk db t d c f pts m in
  get_challenge_by_id (fst r) (snd r)
  = Some (mkChallenge (snd r) t d c f pts m true (current_timestamp clk))
  /\ (forall x, In x (challenges db) -> c_id x <> snd r)
  /\ (forall i, i <> snd r ->
        get_challenge_by_id (fst r) i = get_challenge_by_id db i).
Proof.
  simpl. unfold get_challenge_by_id, fetchone; simpl.
  assert (Hfresh : forall x, In x (challenges db) ->
                     c_id x <> next_rowid (map c_id (challenges db))).
  { intros x Hx Heq. apply (next_rowid_fresh (map c_id (challenges db))).
    rewrite <- Heq. apply in_map; assumption. }
  split; [|split; [exact Hfresh|]].
  - rewrite find_app.
    destruct (find _ (challenges db)) as [x|] eqn:Hf.
    + apply find_some in Hf. destruct Hf as [Hx Hid].
      apply andb_true_iff in Hid. destruct Hid as [Hid _].
      apply Z.eqb_eq in Hid. exfalso. apply (Hfresh x Hx Hid).
    + simpl. rewrite Z.eqb_refl. reflexivity.
  - intros i Hi. rewrite find_app.
    destruct (find _ (challenges db)); [reflexivity|]. simpl.
    apply Z.eqb_neq in Hi. rewrite Z.eqb_sym, Hi. reflexivity.
Qed.

(** X3.  [get_challenge_by_id] and [get_all_challenges] agree: a challenge
    returned for an id carries that id, is active and is in the listing; and
    with challenge ids unique, every listed challenge is the one returned
    for its id. *)
Theorem get_challenge_by_id_agrees_with_listing (db : Db) :
  (forall i c, get_challenge_by_id db i = Some c ->
     c_id c = i /\ is_active c = true /\ In c (get_all_challenges db))
  /\ (NoDup (map c_id (challenges db)) ->
      forall c, In c (get_all_challenges db) ->
        get_challenge_by_id db (c_id c) = Some c).
Proof.
  assert (Hin : forall c, In c (get_all_challenges db) <->
                  In c (challenges db) /\ is_active c = true).
  { intros c. unfold get_all_challenges. rewrite <- filter_In.
    split; apply Permutation_in; [|symmetry]; apply order_by_perm. }
  split.
  - intros i c Hg. apply get_challenge_by_id_some in Hg.
    destruct Hg as (Hc & Hid & Hact). rewrite Hin. auto.
  - intros Hnd c Hc. apply Hin in Hc. destruct Hc as [Hc Hact].
    unfold get_challenge_by_id, fetchone.
    destruct (find _ (challenges db)) as [x|] eqn:Hf.
    + apply find_some in Hf. destruct Hf as [Hx Hid].
      apply andb_true_iff in Hid. destruct Hid as [Hid _].
      apply Z.eqb_eq in Hid. f_equal.
      apply (NoDup_map_eq c_id (challenges db)); assumption.
    + pose proof (find_none _ _ Hf c Hc) as Hn. simpl in Hn.
      rewrite Z.eqb_refl, Hact in Hn. discriminate.
Qed.

Lemma submit_flag_refused_users (clk : Clock) (db : Db) (u ch : Z) (sub : str) :
  fst (snd (submit_flag clk db u ch sub)) = false ->
  users (fst (submit_flag clk db u ch sub)) = users db.
Proof.
  intros Hacc.
  destruct (get_challenge_by_id db ch) as [c|] eqn:Hc.
  - destruct (pair_solved db u ch) eqn:Hs.
    + rewrite (submit_flag_solved clk db u ch sub c Hc Hs). reflexivity.
    + destruct (submit_flag_recorded clk db u ch sub c Hc Hs)
        as (Hres & _ & _ & _ & Hus).
      rewrite Hres in Hacc. rewrite Hus.
      destruct (str_eqb (strip sub) (strip (flag c))); [discriminate|].
      reflexivity.
  - rewrite (submit_flag_not_found clk db u ch sub Hc). reflexivity.
Qed.

Section RoundTrips.

Variable sha256_hexdigest : str -> str.

(** X2.  After a registration under a free username, [verify_password] with
    the same password returns the new record, which has score 0 and the id
    [create_user] returned; a password with another hash is refused, and
    the answer for every other username is as before. *)
Theorem create_user_then_verify
    (clk : Clock) (db : Db) (n pw : str) (o : bool) :
  (forall u, In u (users db) -> username u <> n) ->
  let r := create_user sha256_hexdigest clk db n pw o in
  let u := mkUser (next_rowid (map u_id (users db))) n (sha256_hexdigest pw)
                  0 o (current_timestamp clk) in
  snd r = Some (u_id u)
  /\ get_user_by_username (fst r) n = Some u
  /\ verify_password sha256_hexdigest (fst r) n pw = Some u
  /\ (forall pw', sha256_hexdigest pw' <> sha256_hexdigest pw ->
        verify_password sha256_hexdigest (fst r) n pw' = None)
  /\ (forall n' pw', n' <> n ->
        verify_password sha256_hexdigest (fst r) n' pw'
        = verify_password sha256_hexdigest db n' pw').
Proof.
  intros Hfree r u.
  destruct (create_user_tables sha256_hexdigest clk db n pw o)
    as [[He _]|[_ Hr]].
  { exfalso. apply existsb_exists in He. destruct He as (x & Hx & Hn).
    apply str_eqb_eq in Hn. apply (Hfree x Hx Hn). }
  simpl in Hr. subst r. rewrite Hr. simpl.
  assert (Hnone : find (fun x => str_eqb (username x) n) (users db) = None).
  { destruct (find _ (users db)) as [x|] eqn:Hf; [|reflexivity].
    apply find_some in Hf. destruct Hf as [Hx Hn]. apply str_eqb_eq in Hn.
    exfalso. apply (Hfree x Hx Hn). }
  assert (Hget : get_user_by_username
                   (mkDb (users db ++ [u]) (challenges db) (submissions db)
                      (user_challenge_progress db)) n = Some u).
  { unfold get_user_by_username, fetchone; simpl.
    rewrite find_app, Hnone. simpl. rewrite str_eqb_refl. reflexivity. }
  split; [reflexivity|]. split; [exact Hget|].
  unfold verify_password. fold u. rewrite Hget.
  split; [simpl; rewrite str_eqb_refl; reflexivity|]. split.
  - intros pw' Hpw. simpl.
    destruct (str_eqb (sha256_hexdigest pw) (sha256_hexdigest pw')) eqn:He;
      [|reflexivity].
    apply str_eqb_eq in He. congruence.
  - intros n' pw' Hn. unfold get_user_by_username, fetchone; simpl.
    rewrite find_app.
    destruct (find (fun x => str_eqb (username x) n') (users db));
      [reflexivity|].
    simpl. destruct (str_eqb n n') eqn:He; [|reflexivity].
    apply str_eqb_eq in He. congruence.
Qed.

(** X4.  The leaderboard moves only when a flag is accepted: a registration,
    a new challenge and a refused submission all leave it as it was; in
    particular a user who has just registered is not ranked. *)
Theorem leaderboard_changes_only_on_accept (db : Db) (op : Op) :
  match op with
  | SubmitFlag clk u ch sub => fst (snd (submit_flag clk db u ch sub)) = false
  | _ => True
  end ->
  get_leaderboard (run_op sha256_hexdigest db op) = get_leaderboard db.
Proof.
  destruct op as [clk n p o|clk t d c f pts m|clk u ch sub]; simpl; intros H.
  - destruct (create_user_tables sha256_hexdigest clk db n p o)
      as [[_ ->]|[_ ->]]; [reflexivity|].
    unfold get_leaderboard; simpl. rewrite filter_app; simpl.
    rewrite app_nil_r. reflexivity.
  - reflexivity.
  - unfold get_leaderboard. rewrite submit_flag_refused_users by exact H.
    reflexivity.
Qed.

End RoundTrips.

(** ** The submission log *)

Lemma select_progress_recorded_other (clk : Clock) (db : Db) (u ch : Z)
    (sub : str) (c : Challenge) (u' c' : Z) :
  get_challenge_by_id db ch = Some c ->
  pair_solved db u ch = false ->
  (u' =? u) && (c' =? ch) = false ->
  select_progress (fst (submit_flag clk db u ch sub)) u' c'
  = select_progress db u' c'.
Proof.
  intros Hc Hs Hne.
  destruct (submit_flag_recorded clk db u ch sub c Hc Hs)
    as (_ & _ & _ & Hp & _).
  set (ok := str_eqb (strip sub) (strip (flag c))) in *.
  set (at_ := if ok then Some (datetime_now clk) else None) in *.
  unfold select_progress at 1. rewrite Hp.
  destruct (select_progress db u ch) as [p0|] eqn:Hsel.
  - fold (select_progress (update_progress db u ch ok at_) u' c').
    rewrite select_progress_update.
    destruct (select_progress db u' c') as [q|] eqn:Hq; simpl; [|reflexivity].
    apply select_progress_some_key in Hq. destruct Hq as [Hqu Hqc].
    unfold progress_key. rewrite Hqu, Hqc, Hne. reflexivity.
  - fold (select_progress (insert_progress db u ch ok at_) u' c').
    rewrite select_progress_insert.
    rewrite (Z.eqb_sym u u'), (Z.eqb_sym ch c'), Hne.
    destruct (select_progress db u' c'); reflexivity.
Qed.

Lemma pair_attempts_recorded (clk : Clock) (db : Db) (u ch : Z) (sub : str)
    (c : Challenge) (u' c' : Z) :
  get_challenge_by_id db ch = Some c ->
  pair_solved db u ch = false ->
  pair_attempts (fst (submit_flag clk db u ch sub)) u' c'
  = pair_attempts db u' c' + (if (u' =? u) && (c' =? ch) then 1 else 0).
Proof.
  intros Hc Hs. unfold pair_attempts.
  destruct ((u' =? u) && (c' =? ch)) eqn:Hk.
  - apply andb_true_iff in Hk. rewrite !Z.eqb_eq in Hk. destruct Hk; subst.
    destruct (select_progress_recorded clk db u ch sub c Hc Hs)
      as (p & -> & _ & _ & _ & ->).
    destruct (select_progress db u ch); lia.
  - rewrite (select_progress_recorded_other clk db u ch sub c u' c' Hc Hs Hk).
    lia.
Qed.

Lemma count_filter_snoc {A : Type} (f : A -> bool) (l : list A) (x : A) :
  Z.of_nat (List.length (filter f (l ++ [x])))
  = Z.of_nat (List.length (filter f l)) + (if f x then 1 else 0).
Proof.
  rewrite filter_app, length_app; simpl. destruct (f x); simpl; lia.
Qed.

Lemma log_inv_submit_flag (clk : Clock) (db : Db) (u ch : Z) (sub : str) :
  log_inv db -> log_inv (fst (submit_flag clk db u ch sub)).
Proof.
  intros Hinv.
  destruct (get_challenge_by_id db ch) as [c|] eqn:Hc;
    [|rewrite (submit_flag_not_found clk db u ch sub Hc); exact Hinv].
  destruct (pair_solved db u ch) eqn:Hs;
    [rewrite (submit_flag_solved clk db u ch sub c Hc Hs); exact Hinv|].
  destruct (submit_flag_recorded clk db u ch sub c Hc Hs)
    as (_ & _ & Hsb & _ & _).
  intros u' c'. destruct (Hinv u' c') as [Hatt Hcor].
  unfold count_submissions, count_correct. rewrite Hsb, !count_filter_snoc.
  fold (count_submissions db u' c'). fold (count_correct db u' c').
  rewrite (pair_attempts_recorded clk db u ch sub c u' c' Hc Hs).
  rewrite (pair_solved_recorded clk db u ch sub c u' c' Hc Hs).
  unfold submission_of; simpl.
  rewrite (Z.eqb_sym u u'), (Z.eqb_sym ch c'), Hatt, Hcor.
  destruct ((u' =? u) && (c' =? ch)) eqn:Hk; simpl.
  - apply andb_true_iff in Hk. rewrite !Z.eqb_eq in Hk. destruct Hk; subst.
    rewrite Hs. split; [reflexivity|].
    destruct (str_eqb (strip sub) (strip (flag c))); reflexivity.
  - split; lia.
Qed.

Lemma log_inv_run (sha256_hexdigest : str -> str) (ops : list Op) (db : Db) :
  log_inv db -> log_inv (run sha256_hexdigest db ops).
Proof.
  revert db; induction ops as [|op ops IH]; intros db H; simpl; [exact H|].
  apply IH. destruct op as [clk n p o|clk t d c f pts m|clk u ch sub]; simpl.
  - destruct (create_user_tables sha256_hexdigest clk db n p o)
      as [[_ ->]|[_ ->]]; exact H.
  - exact H.
  - apply log_inv_submit_flag; exact H.
Qed.

(** X5.  In every state the operations reach from the empty store, the
    attempt counter of a pair is the number of Submission rows logged for
    it (0 when the pair has no Progress row), and the pair has one correct
    Submission row if its Progress row is solved and none otherwise: no pair
    is ever credited twice. *)
Theorem attempts_count_matches_submission_log
    (sha256_hexdigest : str -> str) (ops : list Op) (u c : Z) :
  let db := run sha256_hexdigest empty_db ops in
  count_submissions db u c = pair_attempts db u c
  /\ count_correct db u c = (if pair_solved db u c then 1 else 0)
  /\ count_correct db u c <= 1.
Proof.
  intros db.
  assert (H : log_inv db).
  { apply log_inv_run. intros u' c'. split; reflexivity. }
  destruct (H u c) as [H1 H2]. split; [exact H1|]. split; [exact H2|].
  rewrite H2. destruct (pair_solved db u c); lia.
Qed.

(** ** What no operation undoes *)

Lemma users_after_op (sha256_hexdigest : str -> str) (db : Db) (op : Op) :
  exists kept added,
    users (run_op sha256_hexdigest db op) = kept ++ added
    /\ Forall2 same_but_score (users db) kept.
Proof.
  assert (Hrefl : forall l, Forall2 same_but_score l l).
  { induction l; constructor; [repeat split | assumption]. }
  destruct op as [clk n p o|clk t d c f pts m|clk u ch sub]; simpl.
  - destruct (create_user_tables sha256_hexdigest clk db n p o)
      as [[_ ->]|[_ ->]]; simpl.
    + exists (users db), []. rewrite app_nil_r. auto.
    + eexists (users db), _. split; [reflexivity | apply Hrefl].
  - exists (users db), []. rewrite app_nil_r. auto.
  - destruct (submit_flag_tables clk db u ch sub)
      as [->|(c & ok & at_ & _ & _ & _ & _ & _ & Hus)].
    + exists (users db), []. rewrite app_nil_r. auto.
    + rewrite Hus. destruct ok.
      * eexists _, []. rewrite app_nil_r. split; [reflexivity|].
        unfold update_score; simpl. clear.
        induction (users db) as [|x l IH]; simpl; constructor; [|exact IH].
        destruct (u_id x =? u); repeat split.
      * exists (users db), []. rewrite app_nil_r. auto.
Qed.

Lemma users_after_run (sha256_hexdigest : str -> str) (ops : list Op)
    (db : Db) :
  exists kept added,
    users (run sha256_hexdigest db ops) = kept ++ added
    /\ Forall2 same_but_score (users db) kept.
Proof.
  revert db; induction ops as [|op ops IH]; intros db; simpl.
  - exists (users db), []. rewrite app_nil_r. split; [reflexivity|].
    induction (users db); constructor; [repeat split | assumption].
  - destruct (users_after_op sha256_hexdigest db op)
      as (k1 & a1 & H1 & F1).
    destruct (IH (run_op sha256_hexdigest db op)) as (k2 & a2 & H2 & F2).
    rewrite H1 in F2. apply Forall2_app_inv_l in F2.
    destruct F2 as (k2a & k2b & Fa & Fb & ->).
    exists k2a, (k2b ++ a2). rewrite H2, app_assoc. split; [reflexivity|].
    clear - F1 Fa. revert k2a Fa.
    induction F1 as [|x y l l' Hxy Hl IH']; intros k Fa; inversion Fa; subst;
      constructor; [|apply IH'; assumption].
    unfold same_but_score in *. intuition congruence.
Qed.

(** X6.  Credentials survive every later operation: a username and password
    that [verify_password] accepts are accepted after any further sequence
    of calls, for a record with the same id, username, hash, organizer flag
    and creation time (only the score may have moved). *)
Theorem verify_password_stable
    (sha256_hexdigest : str -> str) (db : Db) (ops : list Op) (n pw : str)
    (u : User) :
  verify_password sha256_hexdigest db n pw = Some u ->
  exists u',
    verify_password sha256_hexdigest (run sha256_hexdigest db ops) n pw
    = Some u'
    /\ same_but_score u u'.
Proof.
  intros Hv.
  destruct (users_after_run sha256_hexdigest ops db) as (kept & added & Hus & F).
  unfold verify_password, get_user_by_username, fetchone in *.
  rewrite Hus, find_app.
  pose proof (find_Forall2 same_but_score
                (fun x => str_eqb (username x) n) (users db) kept) as Hf.
  specialize (Hf ltac:(intros a b (_ & Hn & _); rewrite Hn; reflexivity) F).
  destruct (find (fun x => str_eqb (username x) n) (users db)) as [x|];
    [|discriminate].
  destruct (find (fun x => str_eqb (username x) n) kept) as [y|];
    [|contradiction].
  destruct Hf as (Hid & Hn & Hh & Ho & Ht).
  rewrite <- Hh.
  destruct (str_eqb (password_hash x) (sha256_hexdigest pw)); [|discriminate].
  inversion Hv; subst. exists y. split; [reflexivity|]. repeat split; assumption.
Qed.

Lemma prefix_after_op (sha256_hexdigest : str -> str) (db : Db) (op : Op) :
  (exists l, challenges (run_op sha256_hexdigest db op) = challenges db ++ l)
  /\ (exists l, submissions (run_op sha256_hexdigest db op)
                = submissions db ++ l).
Proof.
  destruct op as [clk n p o|clk t d c f pts m|clk u ch sub]; simpl.
  - destruct (create_user_tables sha256_hexdigest clk db n p o)
      as [[_ ->]|[_ ->]]; simpl; split; exists []; rewrite app_nil_r;
      reflexivity.
  - split; [eexists; reflexivity | exists []; rewrite app_nil_r; reflexivity].
  - destruct (get_challenge_by_id db ch) as [c|] eqn:Hc.
    + destruct (pair_solved db u ch) eqn:Hs.
      * rewrite (submit_flag_solved clk db u ch sub c Hc Hs); simpl.
        split; exists []; rewrite app_nil_r; reflexivity.
      * destruct (submit_flag_recorded clk db u ch sub c Hc Hs)
          as (_ & Hch & Hsb & _ & _).
        rewrite Hch, Hsb.
        split; [exists []; rewrite app_nil_r; reflexivity
               | eexists; reflexivity].
    + rewrite (submit_flag_not_found clk db u ch sub Hc); simpl.
      split; exists []; rewrite app_nil_r; reflexivity.
Qed.

(** X7.  The challenges table and the submission log are append-only: after
    any sequence of calls both start with exactly the rows they held before,
    so no challenge is ever edited, deactivated or removed and no logged
    submission is ever rewritten. *)
Theorem challenges_and_log_append_only
    (sha256_hexdigest : str -> str) (db : Db) (ops : list Op) :
  (exists l, challenges (run sha256_hexdigest db ops) = challenges db ++ l)
  /\ (exists l, submissions (run sha256_hexdigest db ops)
                = submissions db ++ l).
Proof.
  revert db; induction ops as [|op ops IH]; intros db; simpl.
  - split; exists []; rewrite app_nil_r; reflexivity.
  - destruct (prefix_after_op sha256_hexdigest db op) as [[l1 H1] [l2 H2]].
    destruct (IH (run_op sha256_hexdigest db op)) as [[l3 H3] [l4 H4]].
    rewrite H3, H4, H1, H2, <- !app_assoc.
    split; eexists; reflexivity.
Qed.


(** ** Identifiers *)

Lemma fold_max_attained (l : list Z) (i : Z) :
  fold_left Z.max l i = i \/ In (fold_left Z.max l i) l.
Proof.
  revert i; induction l as [|x l IH]; intros i; simpl; [auto|].
  destruct (IH (Z.max i x)) as [H|H]; [|auto].
  rewrite H. destruct (Z.max_spec i x) as [[_ ->]|[_ ->]]; auto.
Qed.

Lemma first_ids_snoc (n : nat) :
  first_ids (S n) = first_ids n ++ [Z.of_nat n + 1].
Proof.
  unfold first_ids. rewrite seq_S, map_app. simpl.
  f_equal. f_equal. lia.
Qed.

Lemma in_first_ids (n : nat) (i : Z) :
  In i (first_ids n) <-> 1 <= i <= Z.of_nat n.
Proof.
  unfold first_ids. rewrite in_map_iff. split.
  - intros (k & <- & Hk). apply in_seq in Hk. lia.
  - intros H. exists (Z.to_nat i). split; [lia|]. apply in_seq. lia.
Qed.

Lemma next_rowid_first_ids (n : nat) :
  next_rowid (first_ids n) = Z.of_nat n + 1.
Proof.
  destruct n as [|n]; [reflexivity|].
  pose proof (in_first_ids (S n)) as Hin.
  assert (Hlast : In (Z.of_nat (S n)) (first_ids (S n))) by (apply Hin; lia).
  apply next_rowid_above in Hlast.
  destruct (first_ids (S n)) as [|x r] eqn:Hl; [destruct (proj2 (Hin 1)); lia|].
  unfold next_rowid in *.
  destruct (fold_max_attained r x) as [H|H].
  - assert (1 <= x <= Z.of_nat (S n)) by (apply Hin; left; reflexivity). lia.
  - assert (1 <= fold_left Z.max r x <= Z.of_nat (S n))
      by (apply Hin; right; exact H). lia.
Qed.

Lemma dense_snoc (l : list Z) :
  l = first_ids (List.length l) ->
  l ++ [next_rowid l] = first_ids (List.length (l ++ [next_rowid l])).
Proof.
  intros H. rewrite length_app; simpl. rewrite Nat.add_1_r, first_ids_snoc.
  rewrite H at 2. rewrite next_rowid_first_ids, <- H. reflexivity.
Qed.

Lemma dense_after_op (sha256_hexdigest : str -> str) (db : Db) (op : Op) :
  map u_id (users db) = first_ids (List.length (users db))
  /\ map c_id (challenges db) = first_ids (List.length (challenges db)) ->
  map u_id (users (run_op sha256_hexdigest db op))
  = first_ids (List.length (users (run_op sha256_hexdigest db op)))
  /\ map c_id (challenges (run_op sha256_hexdigest db op))
     = first_ids (List.length (challenges (run_op sha256_hexdigest db op))).
Proof.
  intros [Hu Hc].
  destruct op as [clk n p o|clk t d c f pts m|clk u ch sub]; simpl.
  - destruct (create_user_tables sha256_hexdigest clk db n p o)
      as [[_ ->]|[_ ->]]; simpl; [auto|]. split; [|exact Hc].
    rewrite map_app; simpl.
    rewrite <- (length_map u_id (users db ++ _)), map_app; simpl.
    apply dense_snoc. rewrite length_map. exact Hu.
  - split; [exact Hu|]. rewrite map_app; simpl.
    rewrite <- (length_map c_id (challenges db ++ _)), map_app; simpl.
    apply dense_snoc. rewrite length_map. exact Hc.
  - pose proof (users_ids_after_submit clk db u ch sub) as Hids.
    destruct (submit_flag_tables clk db u ch sub)
      as [->|(c & ok & at_ & _ & _ & _ & Hch & _ & _)]; [auto|].
    rewrite Hch. split; [|exact Hc].
    rewrite <- (length_map u_id), Hids, length_map. exact Hu.
Qed.

(** X9.  Identifiers are handed out densely in order of creation: in every
    state the operations reach from the empty store, the users are numbered
    1, 2, ..., n along the table and so are the challenges, so the next
    successful [create_user] returns n + 1. *)
Theorem ids_are_dense (sha256_hexdigest : str -> str) (ops : list Op) :
  let db := run sha256_hexdigest empty_db ops in
  map u_id (users db) = first_ids (List.length (users db))
  /\ map c_id (challenges db) = first_ids (List.length (challenges db))
  /\ forall clk n p o,
       (forall x, In x (users db) -> username x <> n) ->
       snd (create_user sha256_hexdigest clk db n p o)
       = Some (Z.of_nat (List.length (users db)) + 1).
Proof.
  intros db.
  assert (H : map u_id (users db) = first_ids (List.length (users db))
              /\ map c_id (challenges db)
                 = first_ids (List.length (challenges db))).
  { subst db. generalize empty_db (conj (eq_refl : map u_id (users empty_db) = first_ids (List.length (users empty_db))) (eq_refl : map c_id (challenges empty_db) = first_ids (List.length (challenges empty_db)))).
    induction ops as [|op ops IH]; intros d Hd; simpl; [exact Hd|].
    apply IH. apply dense_after_op. exact Hd. }
  destruct H as [Hu Hc]. split; [exact Hu|]. split; [exact Hc|].
  intros clk n p o Hfree.
  destruct (create_user_tables sha256_hexdigest clk db n p o)
    as [[He _]|[_ Hr]].
  - exfalso. apply existsb_exists in He. destruct He as (x & Hx & Hn).
    apply str_eqb_eq in Hn. apply (Hfree x Hx Hn).
  - simpl in Hr. rewrite Hr. simpl. rewrite Hu, next_rowid_first_ids.
    reflexivity.
Qed.

(** ** [get_user_progress] *)





Lemma sum_fst_points_perm (l l' : list (Challenge * Progress)) :
  Permutation l l' ->
  fold_right (fun cp acc => points (fst cp) + acc) 0 l
  = fold_right (fun cp acc => points (fst cp) + acc) 0 l'.
Proof. induction 1; simpl; lia. Qed.

Lemma sum_fst_points_app (l l' : list (Challenge * Progress)) :
  fold_right (fun cp acc => points (fst cp) + acc) 0 (l ++ l')
  = fold_right (fun cp acc => points (fst cp) + acc) 0 l
    + fold_right (fun cp acc => points (fst cp) + acc) 0 l'.
Proof. induction l; simpl; lia. Qed.

Lemma sum_fst_points_pair (c : Challenge) (ps : list Progress) :
  fold_right (fun cp acc => points (fst cp) + acc) 0 (map (pair c) ps)
  = points c * Z.of_nat (List.length ps).
Proof. induction ps as [|p ps IH]; simpl List.length; simpl; lia. Qed.

(** With one Progress row per pair, a pair has one solved row or none. *)
Lemma solved_rows_of_pair (u c : Z) (l : list Progress) :
  NoDup (map progress_pair l) ->
  Z.of_nat (List.length
              (filter (fun p => progress_key u c p && is_solved p) l))
  = if existsb (fun p => progress_key u c p && is_solved p) l then 1 else 0.
Proof.
  induction l as [|p l IH]; simpl; intros Hnd; [reflexivity|].
  inversion Hnd as [|? ? Hnotin Hnd']; subst.
  destruct (progress_key u c p) eqn:Hk; simpl; [|apply IH; exact Hnd'].
  assert (Hrest : forall q, In q l -> progress_key u c q = false).
  { intros q Hq. destruct (progress_key u c q) eqn:Hkq; [|reflexivity].
    exfalso. apply Hnotin. apply progress_key_true in Hk, Hkq.
    replace (progress_pair p) with (progress_pair q)
      by (unfold progress_pair; destruct Hk, Hkq; congruence).
    apply in_map; exact Hq. }
  assert (Hnone : filter (fun q => progress_key u c q && is_solved q) l = []).
  { apply filter_nothing. intros q Hq. rewrite (Hrest q Hq). reflexivity. }
  assert (Hex : existsb (fun q => progress_key u c q && is_solved q) l
                = false).
  { apply existsb_false_forall. intros q Hq. rewrite (Hrest q Hq).
    reflexivity. }
  destruct (is_solved p); simpl; rewrite ?Hnone, ?Hex; reflexivity.
Qed.

Lemma listed_points_join (db : Db) (uid : Z) :
  NoDup (map progress_pair (user_challenge_progress db)) ->
  fold_right (fun cp acc => points (fst cp) + acc) 0 (solved_join db uid)
  = solved_points db uid.
Proof.
  intros Hnd. unfold solved_join, solved_points, has_solved_row.
  induction (challenges db) as [|c cs IH]; simpl; [reflexivity|].
  rewrite sum_fst_points_app, sum_fst_points_pair, IH.
  rewrite (filter_ext _ (fun p => progress_key uid (c_id c) p && is_solved p)).
  2:{ intros p. unfold progress_key.
      rewrite (Z.eqb_sym (c_id c)), (andb_comm (p_challenge_id p =? c_id c)).
      reflexivity. }
  rewrite (solved_rows_of_pair uid (c_id c) _ Hnd).
  destruct (existsb _ (user_challenge_progress db)); simpl; lia.
Qed.

(** X11.  As long as flags are submitted for stored users only and the
    arguments and scores stay in the 64-bit range of the store, the score
    [get_user_progress] reports is the total of the points it lists. *)
Theorem get_user_progress_score_is_listed_total
    (sha256_hexdigest : str -> str) (ops : list Op) (user_id : Z)
    (name : str) (total : Z) :
  callers_registered sha256_hexdigest empty_db ops ->
  run_fits sha256_hexdigest empty_db ops ->
  let r := get_user_progress (run sha256_hexdigest empty_db ops) user_id in
  fst r = Some (name, total) ->
  listed_points (snd r) = total.
Proof.
  intros Hreg _ r Hfst. subst r.
  pose proof (store_inv_run sha256_hexdigest empty_db ops
                (store_inv_empty) Hreg) as Hinv.
  set (db := run sha256_hexdigest empty_db ops) in *.
  simpl in *. unfold fetchone in Hfst.
  destruct (find (fun u => u_id u =? user_id) (users db)) as [x|] eqn:Hf;
    [|discriminate].
  apply find_some in Hf. destruct Hf as [Hx Hid]. apply Z.eqb_eq in Hid.
  simpl in Hfst. inversion Hfst; subst.
  rewrite (inv_score _ Hinv x Hx).
  rewrite <- (listed_points_join db (u_id x))
    by apply (inv_pairs _ (inv_schema _ Hinv)).
  unfold listed_points.
  transitivity (fold_right (fun cp acc => points (fst cp) + acc) 0
                  (order_by by_solved_at_asc (solved_join db (u_id x)))).
  - generalize (order_by by_solved_at_asc (solved_join db (u_id x))).
    intros l. induction l as [|cp l IH]; simpl; [reflexivity|].
    rewrite IH. reflexivity.
  - apply sum_fst_points_perm, order_by_perm.
Qed.

(** * Properties of [utils.py] *)

(** ** [truncate_text] *)

Lemma len_app (a b : str) : len (a ++ b) = len a + len b.
Proof. unfold len. rewrite length_app. lia. Qed.

Lemma len_firstn (n : nat) (s : str) :
  len (firstn n s) = Z.min (Z.of_nat n) (len s).
Proof. unfold len. rewrite length_firstn. lia. Qed.

Lemma len_nonneg (s : str) : 0 <= len s.
Proof. unfold len. lia. Qed.

Lemma len_slice_to (s : str) (k : Z) :
  len (slice_to s k)
  = if k <? 0 then Z.max 0 (len s + k) else Z.min k (len s).
Proof.
  pose proof (len_nonneg s). unfold slice_to.
  destruct (Z.ltb_spec k 0); rewrite len_firstn; lia.
Qed.

(** X12.  With a limit of at least 3, [truncate_text] never returns more
    than [max_length] characters: a text that fits is returned as it is, a
    longer one is cut to its first [max_length - 3] characters followed by
    "...", which makes exactly [max_length]; truncating again changes
    nothing. *)
Theorem truncate_text_fits (text : str) (max_length : Z) :
  3 <= max_length ->
  len (truncate_text text max_length) <= max_length
  /\ (len text <= max_length -> truncate_text text max_length = text)
  /\ (max_length < len text ->
      truncate_text text max_length
      = firstn (Z.to_nat (max_length - 3)) text ++ py "..."
      /\ len (truncate_text text max_length) = max_length)
  /\ truncate_text (truncate_text text max_length) max_length
     = truncate_text text max_length.
Proof.
  intros Hml.
  assert (Hfit : len text <= max_length ->
                 truncate_text text max_length = text).
  { intros H. unfold truncate_text. apply Z.leb_le in H. rewrite H.
    reflexivity. }
  assert (Hcut : max_length < len text ->
                 truncate_text text max_length
                 = firstn (Z.to_nat (max_length - 3)) text ++ py "..."
                 /\ len (truncate_text text max_length) = max_length).
  { intros H. unfold truncate_text.
    destruct (Z.leb_spec (len text) max_length); [lia|].
    unfold slice_to. destruct (Z.ltb_spec (max_length - 3) 0); [lia|].
    split; [reflexivity|]. rewrite len_app, len_firstn.
    change (len (py "...")) with 3. lia. }
  assert (Hlen : len (truncate_text text max_length) <= max_length).
  { destruct (Z.le_gt_cases (len text) max_length) as [H|H].
    - rewrite Hfit by exact H. exact H.
    - destruct (Hcut H) as [_ ->]. lia. }
  split; [exact Hlen|]. split; [exact Hfit|]. split; [exact Hcut|].
  unfold truncate_text at 1. apply Z.leb_le in Hlen. rewrite Hlen.
  reflexivity.
Qed.

(** X13.  With a limit below 3, a text longer than the limit comes back
    longer than the limit: the slice end [max_length - 3] is negative and
    counts from the end of the text, so the result has
    max(0, len(text) + max_length - 3) + 3 characters, at least 3. *)
Theorem truncate_text_small_limit_overflows (text : str) (max_length : Z) :
  max_length < 3 -> max_length < len text ->
  len (truncate_text text max_length)
  = Z.max 0 (len text + max_length - 3) + 3
  /\ max_length < len (truncate_text text max_length).
Proof.
  intros Hml Hlen. unfold truncate_text.
  destruct (Z.leb_spec (len text) max_length); [lia|].
  rewrite len_app, len_slice_to.
  destruct (Z.ltb_spec (max_length - 3) 0); [|lia].
  change (len (py "...")) with 3. lia.
Qed.

(** ** Table lines *)

Lemma len_repeat (c : char) (n : nat) : len (repeat c n) = Z.of_nat n.
Proof. unfold len. rewrite repeat_length. reflexivity. Qed.

Lemma len_center15 (s : str) : len (center15 s) = Z.max 15 (len s).
Proof.
  unfold center15. cbv zeta.
  destruct (Z.leb_spec (15 - len s) 0); [lia|].
  rewrite !len_app, !len_repeat.
  assert (0 <= (15 - len s) / 2 <= 15 - len s).
  { split; [apply Z.div_pos; lia | apply Z.div_le_upper_bound; lia]. }
  lia.
Qed.

Lemma len_join (sep : str) (parts : list str) :
  parts <> [] ->
  len (join sep parts)
  = fold_right Z.add 0 (map len parts)
    + len sep * (Z.of_nat (List.length parts) - 1).
Proof.
  induction parts as [|p rest IH]; [congruence|]. intros _.
  destruct rest as [|q rest].
  - simpl. lia.
  - change (join sep (p :: q :: rest)) with (p ++ sep ++ join sep (q :: rest)).
    rewrite !len_app, IH by discriminate.
    simpl List.length. simpl map. simpl fold_right. lia.
Qed.

Lemma sum_widths_fit (cells : list str) :
  Forall (fun s => len s <= 15) cells ->
  fold_right Z.add 0 (map len (map center15 cells))
  = 15 * Z.of_nat (List.length cells).
Proof.
  induction 1 as [|s cells Hs Hcells IH]; [reflexivity|].
  simpl map. simpl fold_right. simpl List.length.
  rewrite IH, len_center15. lia.
Qed.

(** X14.  A table line has one field per cell, each 15 characters wide or
    as wide as a longer cell, and 3 characters between fields.  So when
    every header and every cell has at most 15 characters and a row has as
    many cells as there are headers, the row is exactly as long as the
    header line and the separator under it, 18 n - 3 characters for n
    columns; a longer cell is not cut. *)
Theorem table_rows_align_with_header (headers values : list str) :
  headers <> [] ->
  List.length values = List.length headers ->
  Forall (fun s => len s <= 15) headers ->
  Forall (fun s => len s <= 15) values ->
  len (separator headers) = len (header_line headers)
  /\ len (row_line values) = len (header_line headers)
  /\ len (header_line headers) = 18 * Z.of_nat (List.length headers) - 3
  /\ (forall cells, cells <> [] ->
        len (row_line cells)
        = fold_right Z.add 0 (map (fun s => Z.max 15 (len s)) cells)
          + 3 * (Z.of_nat (List.length cells) - 1)).
Proof.
  intros Hne Hlen Hh Hv.
  assert (Hgen : forall cells, cells <> [] ->
            len (row_line cells)
            = fold_right Z.add 0 (map len (map center15 cells))
              + 3 * (Z.of_nat (List.length cells) - 1)).
  { intros cells Hc. unfold row_line. rewrite len_join.
    - rewrite length_map. reflexivity.
    - destruct cells; [congruence | discriminate]. }
  assert (Hvne : values <> []).
  { destruct values; [|discriminate]. destruct headers; [congruence|].
    discriminate. }
  split; [unfold separator; rewrite len_repeat; reflexivity|].
  change (header_line headers) with (row_line headers).
  rewrite (Hgen headers Hne), (Hgen values Hvne), !sum_widths_fit, Hlen
    by assumption.
  split; [reflexivity|]. split; [lia|].
  intros cells Hc. rewrite (Hgen cells Hc). f_equal.
  rewrite map_map. f_equal. apply map_ext. intros s. apply len_center15.
Qed.

(** ** Console input *)

Section ConsoleProperties.

Variable Float : Type.
Variable int_of_str : str -> option Z.
Variable float_of_str : str -> option Float.
Variable str_lower : str -> str.

Lemma get_user_input_step (prompt : str) (ty : InputType) (required : bool)
    (keys : list Key) (out : str) :
  get_user_input Float int_of_str float_of_str prompt ty required keys out
  = let out1 := out ++ CYAN ++ prompt ++ END_ in
    match keys with
    | [] => (Raised EOFError, [], out1)
    | KeyboardInterrupt :: rest =>
        (Returned None, rest,
         out1 ++ print (newline ++ YELLOW ++ py "Operation cancelled."
                        ++ END_))
    | Line user_input :: rest =>
        if is_blank user_input && required
        then get_user_input Float int_of_str float_of_str prompt ty required
               rest
               (out1 ++ print_error
                          (py "This field is required. Please try again."))
        else
          match convert Float int_of_str float_of_str ty user_input with
          | Some v => (Returned (Some v), rest, out1)
          | None =>
              get_user_input Float int_of_str float_of_str prompt ty
                required rest
                (out1 ++ print_error (py "Please enter a valid "
                                      ++ type_name ty ++ py "."))
          end
    end.
Proof. destruct keys; reflexivity. Qed.

(** What [get_user_input] leaves of the keyboard is what followed the keys
    it consumed; it consumed at least one unless the input had run out, and
    it raises nothing but [EOFError], with no key left. *)
Lemma get_user_input_consumes (prompt : str) (ty : InputType)
    (required : bool) (keys : list Key) (out : str) :
  let '(r, keys', _) :=
    get_user_input Float int_of_str float_of_str prompt ty required keys out in
  match r with
  | Returned _ =>
      exists used, keys = used ++ keys' /\ used <> []
  | Raised e => e = EOFError /\ keys' = []
  end.
Proof.
  revert out; induction keys as [|k keys IH]; intros out;
    rewrite get_user_input_step; cbv beta iota zeta; [auto|].
  destruct k as [l|].
  - destruct (is_blank l && required).
    + match goal with
      | |- context [get_user_input _ _ _ _ _ _ _ ?o] => specialize (IH o)
      end.
      destruct (get_user_input _ _ _ _ _ _ _ _) as [[r keys'] out'].
      destruct r; [|exact IH].
      destruct IH as (used & -> & _). exists (Line l :: used).
      split; [reflexivity | discriminate].
    + destruct (convert Float int_of_str float_of_str ty l).
      * exists [Line l]. split; [reflexivity | discriminate].
      * match goal with
        | |- context [get_user_input _ _ _ _ _ _ _ ?o] => specialize (IH o)
        end.
        destruct (get_user_input _ _ _ _ _ _ _ _) as [[r keys'] out'].
        destruct r; [|exact IH].
        destruct IH as (used & -> & _). exists (Line l :: used).
        split; [reflexivity | discriminate].
  - exists [KeyboardInterrupt]. split; [reflexivity | discriminate].
Qed.

(** X15.  A required text input is never empty and never comes back with
    whitespace around it: [get_user_input] skips the blank lines, returns
    the first other line stripped, [None] if Ctrl+C comes first, and raises
    [EOFError] if the input ends first. *)
Theorem get_user_input_required_text (prompt : str) (keys : list Key)
    (out : str) :
  let '(r, keys', _) :=
    get_user_input Float int_of_str float_of_str prompt AsStr true keys out in
  exists blanks,
    Forall (fun l => strip l = []) blanks
    /\ match r with
       | Returned (Some s) =>
           s <> [] /\ strip s = s
           /\ exists l, keys = map Line blanks ++ Line l :: keys'
                        /\ s = strip l
       | Returned None =>
           keys = map Line blanks ++ KeyboardInterrupt :: keys'
       | Raised e => e = EOFError /\ keys = map Line blanks /\ keys' = []
       end.
Proof.
  revert out; induction keys as [|k keys IH]; intros out;
    rewrite get_user_input_step; cbv beta iota zeta.
  - exists []. auto.
  - destruct k as [l|].
    + unfold is_blank. destruct (strip l) as [|c s] eqn:Hl.
      * cbn [andb].
        match goal with
        | |- context [get_user_input _ _ _ _ _ _ _ ?o] => specialize (IH o)
        end.
        destruct (get_user_input _ _ _ _ _ _ _ _) as [[r keys'] out'].
        destruct IH as (blanks & Hb & IH). exists (l :: blanks).
        split; [constructor; assumption|].
        destruct r as [[s|]|e]; simpl.
        -- destruct IH as (H1 & H2 & l' & -> & H3). eauto 10.
        -- rewrite IH. reflexivity.
        -- destruct IH as (H1 & -> & H3). auto.
      * cbn [andb convert]. rewrite Hl.
        exists []. split; [constructor|].
        split; [discriminate|]. split; [rewrite <- Hl; apply strip_idem|].
        exists l. split; [reflexivity | symmetry; exact Hl].
    + exists []. split; [constructor | reflexivity].
Qed.

(** X16.  [confirm_action] asks once: whatever is typed, one key is
    consumed.  A line is answered with whether its stripped, lower-cased
    text is "y" or "yes"; Ctrl+C makes it raise [AttributeError], neither
    [True] nor [False] being returned; at the end of input it raises
    [EOFError]. *)
Theorem confirm_action_asks_once (message : str) (keys : list Key)
    (out : str) :
  let r := confirm_action Float int_of_str float_of_str str_lower message
             keys out in
  match keys with
  | [] => fst r = (Raised EOFError, [])
  | KeyboardInterrupt :: rest => fst r = (Raised AttributeError, rest)
  | Line l :: rest =>
      fst r = (Returned (str_eqb (str_lower (strip l)) (py "y")
                         || str_eqb (str_lower (strip l)) (py "yes")), rest)
  end.
Proof.
  destruct keys as [|[l|] rest]; unfold confirm_action;
    rewrite get_user_input_step; cbv beta iota zeta; rewrite ?andb_false_r;
    reflexivity.
Qed.

Lemma get_menu_choice_loop_spec (max_options : Z) (turns : nat) :
  forall keys out,
    (List.length keys < turns)%nat ->
    exists r keys' out',
      get_menu_choice_loop Float int_of_str float_of_str turns max_options
        keys out = Some (r, keys', out')
      /\ (exists used, keys = used ++ keys')
      /\ match r with
         | Returned (Some choice) => 1 <= choice <= max_options
         | Returned None => In KeyboardInterrupt keys
         | Raised e => e = EOFError /\ keys' = []
         end.
Proof.
  induction turns as [|turns IH]; intros keys out Hlen; [lia|].
  cbn [get_menu_choice_loop].
  pose proof (get_user_input_consumes (py "Enter your choice: ") AsStr true
                keys out) as Hc.
  pose proof (get_user_input_required_text (py "Enter your choice: ") keys out)
    as Ht.
  destruct (get_user_input Float int_of_str float_of_str
              (py "Enter your choice: ") AsStr true keys out)
    as [[r keys1] out1].
  destruct r as [[text|]|e].
  - destruct Hc as (used & Hk & Hne).
    assert (Hshort : (List.length keys1 < turns)%nat).
    { rewrite Hk, length_app in Hlen. destruct used; [congruence|].
      simpl in Hlen. lia. }
    assert (Hnext : forall o,
              exists r keys' out',
                get_menu_choice_loop Float int_of_str float_of_str turns
                  max_options keys1 o = Some (r, keys', out')
                /\ (exists used', keys = used' ++ keys')
                /\ match r with
                   | Returned (Some choice) => 1 <= choice <= max_options
                   | Returned None => In KeyboardInterrupt keys
                   | Raised e => e = EOFError /\ keys' = []
                   end).
    { intros o. destruct (IH keys1 o Hshort) as (r & k' & o' & H1 & H2 & H3).
      exists r, k', o'. split; [exact H1|]. split.
      - destruct H2 as (u' & ->). exists (used ++ u').
        rewrite Hk, app_assoc. reflexivity.
      - destruct r as [[ch|]|]; auto.
        rewrite Hk. apply in_or_app. right. exact H3. }
    destruct (int_of_str text) as [choice|]; [|apply Hnext].
    destruct ((1 <=? choice) && (choice <=? max_options)) eqn:Hr;
      [|apply Hnext].
    apply andb_true_iff in Hr. rewrite !Z.leb_le in Hr.
    exists (Returned (Some choice)), keys1, out1.
    split; [reflexivity|]. split; [exists used; exact Hk | exact Hr].
  - destruct Hc as (used & Hk & _).
    exists (Returned None), keys1, out1.
    split; [reflexivity|]. split; [exists used; exact Hk|].
    destruct Ht as (blanks & _ & ->). apply in_or_app. right. left.
    reflexivity.
  - destruct Hc as [-> ->].
    exists (Raised EOFError), [], out1.
    split; [reflexivity|]. split; [exists keys; rewrite app_nil_r; reflexivity|].
    auto.
Qed.

(** X17.  [get_menu_choice] always comes to an end on a finite input, and a
    choice it returns lies between 1 and [max_options]; it returns [None]
    only when Ctrl+C was typed, raises nothing but [EOFError], and only
    after all input was consumed, and leaves a suffix of the keys.  With
    [max_options] below 1 it can never return a choice. *)
Theorem get_menu_choice_in_range (max_options : Z) (keys : list Key)
    (out : str) :
  exists r keys' out',
    get_menu_choice Float int_of_str float_of_str max_options keys out
    = Some (r, keys', out')
    /\ (exists used, keys = used ++ keys')
    /\ match r with
       | Returned (Some choice) => 1 <= choice <= max_options
       | Returned None => In KeyboardInterrupt keys
       | Raised e => e = EOFError /\ keys' = []
       end
    /\ (max_options < 1 -> forall choice, r <> Returned (Some choice)).
Proof.
  destruct (get_menu_choice_loop_spec max_options (S (List.length keys))
              keys out (Nat.lt_succ_diag_r _)) as (r & k' & o' & H1 & H2 & H3).
  exists r, k', o'. split; [exact H1|]. split; [exact H2|].
  split; [exact H3|].
  intros Hmax choice ->. lia.
Qed.

End ConsoleProperties.

(** * Invariants of the stored rows *)

(** X18.  In every state the operations reach from the empty store,
    usernames are unique, challenge ids are unique, each (user, challenge)
    pair has at most one Progress row, every Progress row names a stored
    challenge, and every challenge is active. *)
Theorem reachable_store_is_consistent
    (sha256_hexdigest : str -> str) (ops : list Op) :
  let db := run sha256_hexdigest empty_db ops in
  NoDup (map username (users db))
  /\ NoDup (map c_id (challenges db))
  /\ NoDup (map progress_pair (user_challenge_progress db))
  /\ (forall p, In p (user_challenge_progress db) ->
        exists c, In c (challenges db) /\ c_id c = p_challenge_id p)
  /\ (forall c, In c (challenges db) -> is_active c = true).
Proof.
  intros db.
  destruct (schema_inv_run sha256_hexdigest empty_db ops schema_inv_empty)
    as [H1 H2 H3 H4 H5].
  fold db in H1, H2, H3, H4, H5.
  repeat split; try assumption.
  intros p Hp. specialize (H4 p Hp). apply in_map_iff in H4.
  destruct H4 as (c & Hid & Hc). eauto.
Qed.

Lemma progress_rows_after_op (sha256_hexdigest : str -> str) (db : Db)
    (op : Op) :
  Forall progress_well_formed (user_challenge_progress db) ->
  Forall progress_well_formed
    (user_challenge_progress (run_op sha256_hexdigest db op)).
Proof.
  intros H. destruct op as [clk n p o|clk t d c f pts m|clk u ch sub]; simpl.
  - destruct (create_user_tables sha256_hexdigest clk db n p o)
      as [[_ ->]|[_ ->]]; exact H.
  - exact H.
  - destruct (get_challenge_by_id db ch) as [c|] eqn:Hc;
      [|rewrite (submit_flag_not_found clk db u ch sub Hc); exact H].
    destruct (pair_solved db u ch) eqn:Hs;
      [rewrite (submit_flag_solved clk db u ch sub c Hc Hs); exact H|].
    destruct (submit_flag_recorded clk db u ch sub c Hc Hs)
      as (_ & _ & _ & Hp & _).
    rewrite Hp.
    destruct (select_progress db u ch).
    + unfold update_progress, update_where; simpl.
      apply Forall_map. eapply Forall_impl; [|exact H].
      intros q (Hq1 & Hq2 & Hq3 & Hq4).
      destruct (progress_key u ch q); [|repeat split; assumption].
      unfold progress_well_formed; simpl.
      destruct (str_eqb (strip sub) (strip (flag c)));
        repeat split; try lia; try assumption; try discriminate; eauto.
    + unfold insert_progress; simpl. apply Forall_app. split; [exact H|].
      constructor; [|constructor].
      unfold progress_well_formed; simpl.
      destruct (str_eqb (strip sub) (strip (flag c)));
        repeat split; try lia; try discriminate; eauto.
Qed.

(** X19.  Every Progress row of a reachable state has at least one attempt,
    carries a solve time exactly when it is solved, and has no lock:
    [locked_until] is never written. *)
Theorem progress_rows_well_formed
    (sha256_hexdigest : str -> str) (ops : list Op) :
  Forall progress_well_formed
    (user_challenge_progress (run sha256_hexdigest empty_db ops)).
Proof.
  assert (H : forall db,
             Forall progress_well_formed (user_challenge_progress db) ->
             Forall progress_well_formed
               (user_challenge_progress (run sha256_hexdigest db ops))).
  { induction ops as [|op ops IH]; intros db Hdb; simpl; [exact Hdb|].
    apply IH. apply progress_rows_after_op. exact Hdb. }
  apply H. constructor.
Qed.

Lemma submission_truthful_grow (db db' : Db) (s : Submission) :
  (exists l, challenges db' = challenges db ++ l) ->
  submission_truthful db s -> submission_truthful db' s.
Proof.
  intros [l Hl] (c & Hc & Hid & Hok). exists c.
  split; [rewrite Hl; apply in_or_app; left; exact Hc | auto].
Qed.

Lemma submissions_after_op (sha256_hexdigest : str -> str) (db : Db)
    (op : Op) :
  Forall (submission_truthful db) (submissions db) ->
  Forall (submission_truthful (run_op sha256_hexdigest db op))
         (submissions (run_op sha256_hexdigest db op)).
Proof.
  intros H.
  assert (Hold : Forall (submission_truthful (run_op sha256_hexdigest db op))
                        (submissions db)).
  { eapply Forall_impl; [|exact H]. intros s.
    apply submission_truthful_grow.
    apply (prefix_after_op sha256_hexdigest db op). }
  destruct op as [clk n p o|clk t d c f pts m|clk u ch sub]; simpl in *.
  - destruct (create_user_tables sha256_hexdigest clk db n p o)
      as [[_ Hr]|[_ Hr]]; rewrite Hr in *; exact Hold.
  - exact Hold.
  - destruct (get_challenge_by_id db ch) as [c|] eqn:Hc;
      [|rewrite (submit_flag_not_found clk db u ch sub Hc) in *; exact Hold].
    destruct (pair_solved db u ch) eqn:Hs;
      [rewrite (submit_flag_solved clk db u ch sub c Hc Hs) in *; exact Hold|].
    destruct (submit_flag_recorded clk db u ch sub c Hc Hs)
      as (_ & Hch & Hsb & _ & _).
    rewrite Hsb. apply Forall_app. split; [exact Hold|].
    constructor; [|constructor].
    apply get_challenge_by_id_some in Hc. destruct Hc as (Hin & Hid & _).
    exists c. rewrite Hch. simpl. auto.
Qed.

(** X20.  The submission log is truthful: in every reachable state each
    Submission row names a stored challenge, and its [is_correct] flag says
    whether the text it recorded, trimmed, equals that challenge's stored
    flag, trimmed. *)
Theorem submission_log_is_truthful
    (sha256_hexdigest : str -> str) (ops : list Op) :
  let db := run sha256_hexdigest empty_db ops in
  Forall (submission_truthful db) (submissions db).
Proof.
  assert (H : forall db,
             Forall (submission_truthful db) (submissions db) ->
             Forall (submission_truthful (run sha256_hexdigest db ops))
                    (submissions (run sha256_hexdigest db ops))).
  { induction ops as [|op ops IH]; intros db Hdb; simpl; [exact Hdb|].
    apply IH. apply submissions_after_op. exact Hdb. }
  apply H. constructor.
Qed.

(** * Concrete runs of the further properties *)

Lemma create_user_then_verify_witness :
  (forall u, In u (users demo_db) -> username u <> py "carol")
  /\ verify_password plain_digest
       (fst (create_user plain_digest t1 demo_db (py "carol") (py "pw") false))
       (py "carol") (py "pw")
     = Some (mkUser 3 (py "carol") (plain_digest (py "pw")) 0 false 2000%N).
Proof.
  assert (H : forall u, In u (users demo_db) -> username u <> py "carol").
  { intros u [<-|[<-|[]]]; vm_compute; discriminate. }
  pose proof (create_user_then_verify plain_digest t1 demo_db (py "carol")
                (py "pw") false H) as P.
  cbv zeta in P. destruct P as (_ & _ & Hv & _).
  exact (conj H Hv).
Defined.

Lemma leaderboard_changes_only_on_accept_witness :
  fst (snd (submit_flag t1 demo_solved_db 2 1 (py "flag{nope}"))) = false
  /\ get_leaderboard
       (run_op plain_digest demo_solved_db
          (SubmitFlag t1 2 1 (py "flag{nope}")))
     = get_leaderboard demo_solved_db.
Proof.
  assert (H : fst (snd (submit_flag t1 demo_solved_db 2 1 (py "flag{nope}")))
              = false) by reflexivity.
  exact (conj H (leaderboard_changes_only_on_accept plain_digest
                   demo_solved_db (SubmitFlag t1 2 1 (py "flag{nope}")) H)).
Defined.

Lemma verify_password_stable_witness :
  verify_password plain_digest demo_db (py "alice") (py "wonderland")
  = Some (mkUser 1 (py "alice") (py "wonderland") 0 false 1000%N)
  /\ exists u',
       verify_password plain_digest
         (run plain_digest demo_db [SubmitFlag t1 1 1 (py " flag{test} ")])
         (py "alice") (py "wonderland") = Some u'
       /\ same_but_score
            (mkUser 1 (py "alice") (py "wonderland") 0 false 1000%N) u'.
Proof.
  assert (H : verify_password plain_digest demo_db (py "alice")
                (py "wonderland")
              = Some (mkUser 1 (py "alice") (py "wonderland") 0 false 1000%N))
    by reflexivity.
  exact (conj H (verify_password_stable plain_digest demo_db
                   [SubmitFlag t1 1 1 (py " flag{test} ")] (py "alice")
                   (py "wonderland") _ H)).
Defined.


Lemma get_user_progress_score_is_listed_total_witness :
  callers_registered plain_digest empty_db registered_ops
  /\ run_fits plain_digest empty_db registered_ops
  /\ fst (get_user_progress (run plain_digest empty_db registered_ops) 1)
     = Some (py "alice", 100)
  /\ listed_points
       (snd (get_user_progress (run plain_digest empty_db registered_ops) 1))
     = 100.
Proof.
  assert (H1 : callers_registered plain_digest empty_db registered_ops)
    by (simpl; repeat split; reflexivity).
  assert (Hfit : run_fits plain_digest empty_db registered_ops).
  { unfold registered_ops, demo_ops. cbn [app run_fits args_fit].
    repeat match goal with
           | |- _ /\ _ => split
           | |- True => exact I
           | |- fits_int64 _ => apply fits_int64_check; vm_compute; reflexivity
           | |- scores_fit _ => apply scores_fit_check; vm_compute; reflexivity
           end. }
  assert (H2 : fst (get_user_progress
                      (run plain_digest empty_db registered_ops) 1)
               = Some (py "alice", 100)) by reflexivity.
  exact (conj H1 (conj Hfit (conj H2
           (get_user_progress_score_is_listed_total plain_digest
              registered_ops 1 (py "alice") 100 H1 Hfit H2)))).
Defined.

Lemma truncate_text_fits_witness :
  3 <= 8 /\ len (truncate_text (py "hello world") 8) <= 8.
Proof.
  assert (H : 3 <= 8) by lia.
  exact (conj H (proj1 (truncate_text_fits (py "hello world") 8 H))).
Defined.

Lemma truncate_text_small_limit_overflows_witness :
  2 < 3 /\ 2 < len (py "abcdef")
  /\ 2 < len (truncate_text (py "abcdef") 2).
Proof.
  assert (H1 : 2 < 3) by lia.
  assert (H2 : 2 < len (py "abcdef")) by (vm_compute; reflexivity).
  exact (conj H1 (conj H2 (proj2 (truncate_text_small_limit_overflows
                                    (py "abcdef") 2 H1 H2)))).
Defined.

Lemma table_rows_align_with_header_witness :
  [py "Rank"; py "User"] <> []
  /\ List.length [py "1"; py "alice"] = List.length [py "Rank"; py "User"]
  /\ Forall (fun s => len s <= 15) [py "Rank"; py "User"]
  /\ Forall (fun s => len s <= 15) [py "1"; py "alice"]
  /\ len (row_line [py "1"; py "alice"])
     = len (header_line [py "Rank"; py "User"]).
Proof.
  assert (H1 : [py "Rank"; py "User"] <> []) by discriminate.
  assert (H2 : List.length [py "1"; py "alice"]
               = List.length [py "Rank"; py "User"]) by reflexivity.
  assert (H3 : Forall (fun s => len s <= 15) [py "Rank"; py "User"])
    by (repeat constructor; vm_compute; discriminate).
  assert (H4 : Forall (fun s => len s <= 15) [py "1"; py "alice"])
    by (repeat constructor; vm_compute; discriminate).
  destruct (table_rows_align_with_header [py "Rank"; py "User"]
              [py "1"; py "alice"] H1 H2 H3 H4) as (_ & Hrow & _).
  exact (conj H1 (conj H2 (conj H3 (conj H4 Hrow)))).
Defined.
